(** * classify_mails: a shallow embedding of the mail classifier

    The development follows [src/classify_mails.py].  Python values are
    modelled as follows.

    - [str] is [string]; texts are taken to be ASCII (the rupee sign of the
      amount patterns is kept as its UTF-8 bytes), so [str.lower], [\d], [\s],
      [\w] and [re.IGNORECASE] are their ASCII versions.
    - [float] is the kernel's binary64 [float]; the integer literal [0] the
      scores start from is the float [0].
    - [re] is a backtracking matcher over the fragment of the pattern syntax
      the program uses; patterns are written as the source writes them and
      compiled by [Re.compile].
    - the brand registry [BRANDS] (brands.json) and the BeautifulSoup calls
      are parameters. *)

From Stdlib Require Import ZArith NArith List String Ascii Bool Lia Floats.
From Stdlib Require Import DecimalString.
Import ListNotations.

Set Warnings "-inexact-float".
Set Implicit Arguments.

(* ================================================================= *)
(** ** Python strings *)

Module Py.
Local Open Scope string_scope.

Definition code (c : ascii) : nat := nat_of_ascii c.
Definition chr (n : nat) : ascii := ascii_of_nat n.

Definition LF : ascii := chr 10.
Definition CR : ascii := chr 13.
(** ["\n"] and ["\r\n"] *)
Definition line_feed : string := String LF EmptyString.
Definition crlf : string := String CR (String LF EmptyString).

Definition between (lo hi n : nat) : bool := Nat.leb lo n && Nat.leb n hi.

Definition is_upper (c : ascii) : bool := between 65 90 (code c).
Definition is_lower (c : ascii) : bool := between 97 122 (code c).
Definition is_digit (c : ascii) : bool := between 48 57 (code c).
(** [str.isspace] on one character: TAB..CR, FS..US and the blank. *)
Definition is_space (c : ascii) : bool :=
  between 9 13 (code c) || between 28 32 (code c).
(** [\w]: letters, digits and the underscore. *)
Definition is_word (c : ascii) : bool :=
  is_upper c || is_lower c || is_digit c || Nat.eqb (code c) 95.

Definition lower_char (c : ascii) : ascii :=
  if is_upper c then chr (code c + 32) else c.
Definition upper_char (c : ascii) : ascii :=
  if is_lower c then chr (code c - 32) else c.

(** [s.lower()] *)
Fixpoint lower (s : string) : string :=
  match s with
  | "" => ""
  | String c s' => String (lower_char c) (lower s')
  end.

(** [s.startswith(p)] *)
Fixpoint startswith (p s : string) : bool :=
  match p, s with
  | "", _ => true
  | String a p', String b s' => Ascii.eqb a b && startswith p' s'
  | String _ _, "" => false
  end.

(** [needle in s] *)
Fixpoint contains (needle s : string) : bool :=
  startswith needle s ||
  match s with
  | "" => false
  | String _ s' => contains needle s'
  end.

(** [any(k in s for k in ks)] *)
Definition any_in (ks : list string) (s : string) : bool :=
  existsb (fun k => contains k s) ks.

(** [s.replace(old, new)], for a non-empty [old] (every call site has one):
    the occurrences are taken from the left and do not overlap; [skip]
    counts the characters of a replaced occurrence still to be dropped. *)
Fixpoint replace_from (old new : string) (skip : nat) (s : string) : string :=
  match s with
  | "" => ""
  | String c s' =>
      match skip with
      | S k => replace_from old new k s'
      | O =>
          if startswith old s
          then new ++ replace_from old new (String.length old - 1) s'
          else String c (replace_from old new 0 s')
      end
  end.

Definition replace (old new s : string) : string := replace_from old new 0 s.

(** [s.replace(old, new, 1)] *)
Fixpoint skipn (n : nat) (s : string) : string :=
  match n, s with
  | O, _ => s
  | S _, "" => ""
  | S k, String _ s' => skipn k s'
  end.

Fixpoint replace_first (old new s : string) : string :=
  match s with
  | "" => ""
  | String c s' =>
      if startswith old s then new ++ skipn (String.length old) s
      else String c (replace_first old new s')
  end.

Fixpoint take (n : nat) (s : string) : string :=
  match n, s with
  | O, _ => ""
  | S _, "" => ""
  | S k, String c s' => String c (take k s')
  end.

Fixpoint lstrip (s : string) : string :=
  match s with
  | String c s' => if is_space c then lstrip s' else s
  | "" => ""
  end.

Fixpoint rstrip (s : string) : string :=
  match s with
  | "" => ""
  | String c s' =>
      match rstrip s' with
      | "" => if is_space c then "" else String c ""
      | t => String c t
      end
  end.

(** [s.strip()] *)
Definition strip (s : string) : string := rstrip (lstrip s).

Fixpoint all_digits (s : string) : bool :=
  match s with
  | "" => true
  | String c s' => is_digit c && all_digits s'
  end.

(** [s.isdigit()] *)
Definition isdigit (s : string) : bool :=
  match s with "" => false | _ => all_digits s end.

(** Truth value of a string: [if s:]. *)
Definition truthy (s : string) : bool :=
  match s with "" => false | _ => true end.

(** [s.split(".")[-1]] *)
Fixpoint last_segment (sep : ascii) (s : string) : string :=
  match s with
  | "" => ""
  | String c s' =>
      if contains (String sep "") s' then last_segment sep s'
      else if Ascii.eqb c sep then s' else s
  end.

Fixpoint last_char (d : option ascii) (s : string) : option ascii :=
  match s with
  | "" => d
  | String c s' => last_char (Some c) s'
  end.

End Py.

(* ================================================================= *)
(** ** Regular expressions: the fragment of [re] the program uses *)

Module Re.
Import Py.
Local Open Scope string_scope.

(** One member of a character class. *)
Inductive citem : Type :=
| One (c : ascii)             (* a literal character *)
| Span (lo hi : ascii)        (* [lo-hi] *)
| Digit                       (* \d *)
| Blank                       (* \s *)
| WordChar.                   (* \w *)

Record charset : Type := { negated : bool; items : list citem }.

Inductive regex : Type :=
| Empty
| Char (cs : charset)
| Cat (r1 r2 : regex)
| Or (r1 r2 : regex)
| Repeat (r : regex) (lo : nat) (hi : option nat)   (* greedy {lo,hi} *)
| Group (i : nat) (r : regex)                       (* capturing group i *)
| Boundary                                          (* \b *)
| Behind (cs : charset)                             (* (?<=c) *)
| Ahead (cs : charset).                             (* (?=c) *)

Definition item_has (it : citem) (c : ascii) : bool :=
  match it with
  | One a => Ascii.eqb a c
  | Span lo hi => between (code lo) (code hi) (code c)
  | Digit => is_digit c
  | Blank => is_space c
  | WordChar => is_word c
  end.

Definition set_has (cs : charset) (c : ascii) : bool :=
  xorb (negated cs) (existsb (fun it => item_has it c) (items cs)).

(** Membership under the flags: with IGNORECASE the lower-cased character is
    tried, then its upper case. *)
Definition char_ok (ic : bool) (cs : charset) (c : ascii) : bool :=
  if ic
  then set_has cs (lower_char c) || set_has cs (upper_char (lower_char c))
  else set_has cs c.

(** Captured groups, the latest binding first. *)
Definition caps : Type := list (nat * string).

Fixpoint group (i : nat) (cs : caps) : string :=
  match cs with
  | [] => ""
  | (j, t) :: cs' => if Nat.eqb i j then t else group i cs'
  end.

(** What is left to match: the character before the position, the rest of
    the text, the groups so far. *)
Definition cont : Type := option ascii -> string -> caps -> option (string * caps).
Definition matcher : Type := option ascii -> string -> caps -> cont -> option (string * caps).

Definition word_before (prev : option ascii) : bool :=
  match prev with Some c => is_word c | None => false end.
Definition word_at (s : string) : bool :=
  match s with String c _ => is_word c | "" => false end.

(** The greedy loop of a quantifier: one more round of [body] first, and
    leaving the loop when that fails.  A round must consume a character, so
    [fuel], the length of the text at the loop's entry, bounds the rounds. *)
Fixpoint rep_loop (body : matcher) (fuel lo : nat) (hi : option nat)
    (prev : option ascii) (s : string) (cs : caps) (k : cont)
    : option (string * caps) :=
  let leave := match lo with O => k prev s cs | S _ => None end in
  match fuel with
  | O => leave
  | S fuel' =>
      match hi with
      | Some O => leave
      | _ =>
          match
            body prev s cs (fun prev' s' cs' =>
              if Nat.ltb (String.length s') (String.length s)
              then rep_loop body fuel' (Nat.pred lo) (option_map Nat.pred hi)
                     prev' s' cs' k
              else None)
          with
          | Some res => Some res
          | None => leave
          end
      end
  end.

Section Matching.
(** [ic]: the pattern is used with [flags=re.IGNORECASE]. *)
Variable ic : bool.

Fixpoint run (r : regex) (prev : option ascii) (s : string) (cs : caps)
    (k : cont) : option (string * caps) :=
  match r with
  | Empty => k prev s cs
  | Char set =>
      match s with
      | String c s' => if char_ok ic set c then k (Some c) s' cs else None
      | "" => None
      end
  | Cat r1 r2 => run r1 prev s cs (fun prev' s' cs' => run r2 prev' s' cs' k)
  | Or r1 r2 =>
      match run r1 prev s cs k with
      | Some res => Some res
      | None => run r2 prev s cs k
      end
  | Repeat r' lo hi => rep_loop (run r') (String.length s) lo hi prev s cs k
  | Group i r' =>
      run r' prev s cs (fun prev' s' cs' =>
        k prev' s' ((i, take (String.length s - String.length s') s) :: cs'))
  | Boundary =>
      if xorb (word_before prev) (word_at s) then k prev s cs else None
  | Behind set =>
      match prev with
      | Some c => if char_ok ic set c then k prev s cs else None
      | None => None
      end
  | Ahead set =>
      match s with
      | String c _ => if char_ok ic set c then k prev s cs else None
      | "" => None
      end
  end.

Definition accept : cont := fun _ s cs => Some (s, cs).

(** A match object: the text before the match, [m.group(0)], the text
    after it, and the groups. *)
Record found : Type :=
  { before : string; whole : string; after : string; groups : caps }.

(** The leftmost match at or after the current position. *)
Fixpoint scan (r : regex) (prev : option ascii) (s : string) : option found :=
  match run r prev s [] accept with
  | Some (s', cs) =>
      Some {| before := ""; whole := take (String.length s - String.length s') s;
              after := s'; groups := cs |}
  | None =>
      match s with
      | "" => None
      | String c s' =>
          match scan r (Some c) s' with
          | Some m => Some {| before := String c (before m); whole := whole m;
                              after := after m; groups := groups m |}
          | None => None
          end
      end
  end.

(** [re.search(p, text)] *)
Definition search (r : regex) (text : string) : option found := scan r None text.

Definition matches (r : regex) (text : string) : bool :=
  match search r text with Some _ => true | None => false end.

(** [re.findall(p, text)] for a pattern with one group, and [re.sub(p, repl,
    text)]: successive leftmost matches that do not overlap.  The patterns
    they are called with match no empty string; after an empty match the
    scan moves on by one character. *)
Fixpoint findall_from (fuel : nat) (r : regex) (prev : option ascii) (s : string)
    : list string :=
  match fuel with
  | O => []
  | S fuel' =>
      match scan r prev s with
      | None => []
      | Some m =>
          group 1 (groups m) ::
          match whole m, after m with
          | "", "" => []
          | "", String c a' => findall_from fuel' r (Some c) a'
          | _, a => findall_from fuel' r (last_char prev (before m ++ whole m)) a
          end
      end
  end.

Definition findall (r : regex) (text : string) : list string :=
  findall_from (S (String.length text)) r None text.

Fixpoint sub_from (fuel : nat) (r : regex) (repl : caps -> string)
    (prev : option ascii) (s : string) : string :=
  match fuel with
  | O => s
  | S fuel' =>
      match scan r prev s with
      | None => s
      | Some m =>
          before m ++ repl (groups m) ++
          match whole m, after m with
          | "", "" => ""
          | "", String c a' => String c (sub_from fuel' r repl (Some c) a')
          | _, a => sub_from fuel' r repl (last_char prev (before m ++ whole m)) a
          end
      end
  end.

Definition sub (r : regex) (repl : caps -> string) (text : string) : string :=
  sub_from (S (String.length text)) r repl None text.

End Matching.
(** *** Compiling a pattern

    [compile p] reads the pattern text [p].  It is [None] when [re.compile]
    rejects the pattern (an unbalanced parenthesis, a quantifier with nothing
    to repeat, a bad escape, an unterminated class) and for syntax outside
    the fragment (anchors, the dot, lazy quantifiers, backreferences, a
    quantified part that can match the empty string). *)

Definition lit (c : ascii) : regex := Char {| negated := false; items := [One c] |}.
Definition cls (it : citem) : regex := Char {| negated := false; items := [it] |}.

Definition ch_is (c : ascii) (t : string) : bool :=
  match t with String d "" => Ascii.eqb c d | _ => false end.

Definition escape_item (e : ascii) : option citem :=
  if ch_is e "d" then Some Digit
  else if ch_is e "s" then Some Blank
  else if ch_is e "w" then Some WordChar
  else if ch_is e "n" then Some (One LF)
  else if ch_is e "r" then Some (One CR)
  else if ch_is e "t" then Some (One (chr 9))
  else if is_word e then None
  else Some (One e).

Definition escape (e : ascii) : option regex :=
  if ch_is e "b" then Some Boundary
  else option_map cls (escape_item e).

Fixpoint class_items (p : string) : option (list citem * string) :=
  match p with
  | "" => None
  | String c rest =>
      if ch_is c "]" then Some ([], rest)
      else if ch_is c "\" then
        match rest with
        | String e rest' =>
            match escape_item e, class_items rest' with
            | Some it, Some (its, q) => Some (it :: its, q)
            | _, _ => None
            end
        | "" => None
        end
      else
        match rest with
        | String m (String d rest') =>
            if ch_is m "-" && negb (ch_is d "]") then
              if ch_is d "\" || negb (Nat.leb (code c) (code d)) then None
              else match class_items rest' with
                   | Some (its, q) => Some (Span c d :: its, q)
                   | None => None
                   end
            else match class_items rest with
                 | Some (its, q) => Some (One c :: its, q)
                 | None => None
                 end
        | _ => match class_items rest with
               | Some (its, q) => Some (One c :: its, q)
               | None => None
               end
        end
  end.

Definition class (p : string) : option (charset * string) :=
  let (neg, body) :=
    match p with
    | String c rest => if ch_is c "^" then (true, rest) else (false, p)
    | "" => (false, p)
    end in
  match body with
  | String c _ =>
      if ch_is c "]" then None
      else match class_items body with
           | Some (its, q) => Some ({| negated := neg; items := its |}, q)
           | None => None
           end
  | "" => None
  end.

Fixpoint number (acc : nat) (p : string) : nat * string :=
  match p with
  | String c rest =>
      if is_digit c then number (10 * acc + (code c - 48)) rest else (acc, p)
  | "" => (acc, p)
  end.

(** [r] matches no empty string. *)
Fixpoint consumes (r : regex) : bool :=
  match r with
  | Char _ => true
  | Cat r1 r2 => consumes r1 || consumes r2
  | Or r1 r2 => consumes r1 && consumes r2
  | Repeat r' lo _ => negb (Nat.eqb lo 0) && consumes r'
  | Group _ r' => consumes r'
  | Empty | Boundary | Behind _ | Ahead _ => false
  end.

Definition starts_with_digit (p : string) : bool :=
  match p with String c _ => is_digit c | "" => false end.

(** The quantifier after an atom, if any: [*], [+], [?], [{m}], [{m,}],
    [{m,n}]. *)
Definition bounds (p : string) : option (option (nat * option nat) * string) :=
  match p with
  | String c rest =>
      if ch_is c "*" then Some (Some (0, None), rest)
      else if ch_is c "+" then Some (Some (1, None), rest)
      else if ch_is c "?" then Some (Some (0, Some 1), rest)
      else if ch_is c "{" then
        if starts_with_digit rest then
          let (lo, q) := number 0 rest in
          match q with
          | String d q' =>
              if ch_is d "}" then Some (Some (lo, Some lo), q')
              else if ch_is d "," then
                match q' with
                | String e q'' =>
                    if ch_is e "}" then Some (Some (lo, None), q'')
                    else if is_digit e then
                      let (hi, t) := number 0 q' in
                      match t with
                      | String f t' =>
                          if ch_is f "}" && Nat.leb lo hi
                          then Some (Some (lo, Some hi), t') else None
                      | "" => None
                      end
                    else None
                | "" => None
                end
              else None
          | "" => None
          end
        else None
      else Some (None, p)
  | "" => Some (None, p)
  end.

Definition quantified (r : regex) (p : string) : option (regex * string) :=
  match bounds p with
  | Some (Some (lo, hi), q) =>
      match q with
      | String c _ =>
          if ch_is c "*" || ch_is c "+" || ch_is c "?" || ch_is c "{" then None
          else if consumes r then Some (Repeat r lo hi, q) else None
      | "" => if consumes r then Some (Repeat r lo hi, q) else None
      end
  | Some (None, q) => Some (r, q)
  | None => None
  end.

Definition expect (c : ascii) (p : string) : option string :=
  match p with
  | String d rest => if Ascii.eqb c d then Some rest else None
  | "" => None
  end.

(** A look-around holds one character class: [(?<=\d)], [(?=\d)]. *)
Definition one_class (r : regex) : option charset :=
  match r with Char cs => Some cs | _ => None end.

(** The parser proper; [g] is the number of the next capturing group. *)
Fixpoint alternation (fuel : nat) (p : string) (g : nat) {struct fuel}
    : option (regex * string * nat) :=
  match fuel with
  | O => None
  | S fuel' =>
      match sequence fuel' p g with
      | Some (r1, String c rest, g1) =>
          if ch_is c "|" then
            match alternation fuel' rest g1 with
            | Some (r2, q, g2) => Some (Or r1 r2, q, g2)
            | None => None
            end
          else Some (r1, String c rest, g1)
      | other => other
      end
  end

with sequence (fuel : nat) (p : string) (g : nat) {struct fuel}
    : option (regex * string * nat) :=
  match fuel with
  | O => None
  | S fuel' =>
      match p with
      | "" => Some (Empty, p, g)
      | String c _ =>
          if ch_is c "|" || ch_is c ")" then Some (Empty, p, g)
          else
            match atom fuel' p g with
            | Some (r, q, g1) =>
                match quantified r q with
                | Some (r', q') =>
                    match sequence fuel' q' g1 with
                    | Some (Empty, t, g2) => Some (r', t, g2)
                    | Some (rs, t, g2) => Some (Cat r' rs, t, g2)
                    | None => None
                    end
                | None => None
                end
            | None => None
            end
      end
  end

with atom (fuel : nat) (p : string) (g : nat) {struct fuel}
    : option (regex * string * nat) :=
  match fuel with
  | O => None
  | S fuel' =>
      match p with
      | "" => None
      | String c rest =>
          if ch_is c "(" then
            if startswith "?:" rest then
              match alternation fuel' (skipn 2 rest) g with
              | Some (r, q, g1) =>
                  match expect ")" q with
                  | Some q' => Some (r, q', g1)
                  | None => None
                  end
              | None => None
              end
            else if startswith "?<=" rest || startswith "?=" rest then
              let behind := startswith "?<=" rest in
              match atom fuel' (skipn (if behind then 3 else 2) rest) g with
              | Some (r, q, g1) =>
                  match one_class r, expect ")" q with
                  | Some cs, Some q' =>
                      Some (if behind then Behind cs else Ahead cs, q', g1)
                  | _, _ => None
                  end
              | None => None
              end
            else if startswith "?" rest then None
            else
              match alternation fuel' rest (S g) with
              | Some (r, q, g1) =>
                  match expect ")" q with
                  | Some q' => Some (Group g r, q', g1)
                  | None => None
                  end
              | None => None
              end
          else if ch_is c "[" then
            match class rest with
            | Some (cs, q) => Some (Char cs, q, g)
            | None => None
            end
          else if ch_is c "\" then
            match rest with
            | String e q =>
                match escape e with
                | Some r => Some (r, q, g)
                | None => None
                end
            | "" => None
            end
          else if ch_is c "." || ch_is c "^" || ch_is c "$" || ch_is c "*"
                  || ch_is c "+" || ch_is c "?" || ch_is c "{" then None
          else Some (lit c, rest, g)
      end
  end.

(** [re.compile(p)] *)
Definition compile (p : string) : option regex :=
  match alternation (4 * String.length p + 4) p 1 with
  | Some (r, "", _) => Some r
  | _ => None
  end.

(** A pattern of the source, compiled; a pattern that does not compile
    matches nothing (no pattern of the source is such, see [patterns_compile]). *)
Definition pattern (p : string) : regex :=
  match compile p with
  | Some r => r
  | None => Char {| negated := false; items := [] |}
  end.

(** *** What a match has to go through *)

Section Must.
Variable ic : bool.
(** The character every match has to go through. *)
Variable c : ascii.

(** The class holds [c] and nothing else. *)
Definition only_char (cs : charset) : bool :=
  forallb (fun n => implb (char_ok ic cs (chr n)) (Ascii.eqb (chr n) c))
          (seq 0 256).

(** A sufficient test for: every text [r] matches holds [c]. *)
Fixpoint must (r : regex) : bool :=
  match r with
  | Char cs => only_char cs
  | Cat r1 r2 => must r1 || must r2
  | Or r1 r2 => must r1 && must r2
  | Repeat r' lo _ => negb (Nat.eqb lo 0) && must r'
  | Group _ r' => must r'
  | Empty | Boundary | Behind _ | Ahead _ => false
  end.

(** From [s] the matcher went on to [s'], over a text that holds [c] when
    [need] says so. *)
Definition passes (s s' : string) (need : bool) : Prop :=
  exists mid, s = mid ++ s' /\ (need = true -> contains (String c "") mid = true).

(** What [run_must] says of a matcher. *)
Definition goes_through (body : matcher) (need : bool) : Prop :=
  forall prev s cs (k : cont) res,
    body prev s cs k = Some res ->
    exists prev' s' cs', k prev' s' cs' = Some res /\ passes s s' need.

End Must.

End Re.

(* ================================================================= *)
(** ** Python floats *)

Module Num.
Local Open Scope float_scope.

(** [min(a, b)]: [b] when [b < a], else [a]. *)
Definition py_min (a b : float) : float := if b <? a then b else a.

Definition round_half_even (num den : Z) : Z :=
  let q := (num / den)%Z in
  let r := (num mod den)%Z in
  match (2 * r ?= den)%Z with
  | Lt => q
  | Gt => (q + 1)%Z
  | Eq => if Z.even q then q else (q + 1)%Z
  end.

(** [round(x, 3)]: the exact value of [x] is rounded to the nearest multiple
    of 1/1000 (ties to even) and the result is the double nearest to that
    decimal, which the correctly rounded quotient [n / 1000] is.  A double
    too large to have a fractional part, an infinity and a NaN are returned
    as they are. *)
Definition round3 (x : float) : float :=
  match Prim2SF x with
  | S754_finite sign m e =>
      let n :=
        if (0 <=? e)%Z then (Zpos m * 2 ^ e * 1000)%Z
        else round_half_even (Zpos m * 1000) (2 ^ (- e)) in
      if (n <? 2 ^ 53)%Z then
        let y := of_uint63 (Uint63.of_Z n) / 1000 in
        if sign then - y else y
      else x
  | _ => x
  end.

(** [x] is a number. *)
Definition not_nan (x : float) : Prop := Prim2SF x <> S754_nan.

(** The value of a decimal numeral with at most fifteen digits, as
    [float(s)] reads it: what is before the point, and the digits after it
    without the zeros at their end.  For such a value [repr] prints the same
    decimal back, so the float is kept as this exact decimal. *)
Record decimal : Type := { units : N; fraction : string }.

End Num.

Module Amount.
Import Py Num.
Local Open Scope string_scope.

Fixpoint N_of_digits (acc : N) (s : string) : N :=
  match s with
  | "" => acc
  | String c s' => N_of_digits (10 * acc + N.of_nat (code c - 48)) s'
  end.

Fixpoint before_point (s : string) : string :=
  match s with
  | "" => ""
  | String c s' => if Ascii.eqb c "." then "" else String c (before_point s')
  end.

Fixpoint after_point (s : string) : string :=
  match s with
  | "" => ""
  | String c s' => if Ascii.eqb c "." then s' else after_point s'
  end.

(** Drops the zeros at the end of a run of digits. *)
Fixpoint significant (s : string) : string :=
  match s with
  | "" => ""
  | String c s' =>
      match significant s' with
      | "" => if Ascii.eqb c "0" then "" else String c ""
      | t => String c t
      end
  end.

(** [float(amt)], for [amt] made of digits with at most one point. *)
Definition float_of (amt : string) : decimal :=
  {| units := N_of_digits 0 (before_point amt);
     fraction := significant (after_point amt) |}.

(** [amt_float < 10] and [amt_float > 100000000] *)
Definition below_ten (d : decimal) : bool := (units d <? 10)%N.
Definition above_limit (d : decimal) : bool :=
  (100000000 <? units d)%N
  || ((units d =? 100000000)%N && truthy (fraction d)).

(** [str(x)] of such a float: [1500.0], [12.5]. *)
Definition repr (d : decimal) : string :=
  NilZero.string_of_uint (N.to_uint (units d)) ++ "." ++
  (if truthy (fraction d) then fraction d else "0").

End Amount.

(* ================================================================= *)
(** ** The classifier *)

Module Mails.
Import Py Re Num Amount.
Local Open Scope string_scope.

(** *** Regex patterns and keyword lists *)

Definition DATE_PATTERN : string :=
  "(\b\d{1,2}[-/ ]?(jan|feb|mar|apr|may|jun|jul|aug|sep|oct|nov|dec)[a-z]*[-/ ]?\d{2,4}\b|"
  ++ "\b(jan|feb|mar|apr|may|jun|jul|aug|sep|oct|nov|dec)[a-z]*\s+\d{1,2},\s*\d{4}\b|"
  ++ "\b\d{1,2}\s+(jan|feb|mar|apr|may|jun|jul|aug|sep|oct|nov|dec)[a-z]*\s+\d{4}\b|"
  ++ "\b\d{4}[-/]\d{2}[-/]\d{2}\b|"
  ++ "\b\d{1,2}[-/]\d{1,2}[-/]\d{2,4}\b)".

(** [re.compile(..., re.IGNORECASE)]: the flag is given where the pattern is
    searched. *)
Definition DATE_REGEX : regex := pattern DATE_PATTERN.

Definition ID_REGEX : regex :=
  pattern "(order id|transaction id|txn id|utr|folio|invoice number|invoice no)".

Definition RECEIPT_META : list string :=
  ["invoice"; "receipt"; "payment"; "purchase"; "order"; "transaction"].

Definition RECURRING_KEYWORDS : list string :=
  ["subscription"; "renewal"; "auto-debit"; "recurring"; "billing cycle";
   "renews on"; "auto-renew"].

Definition FREQ_PATTERNS : list (string * list string) :=
  [ ("weekly",
      ["\bweekly\b"; "\bevery week\b"; "\bper week\b"; "\brenews weekly\b";
       "\b7 days\b"; "/\s*week"; "\bwk\b"]);
    ("monthly",
      ["\bmonthly\b"; "\bevery month\b"; "\bper month\b"; "\bbilled monthly\b";
       "\brenews monthly\b"; "/\s*mo\b"; "/\s*mon\b"; "\b30 days\b";
       "\bevery 30 days\b"]);
    ("yearly",
      ["\byearly\b"; "\bannual\b"; "\bannually\b"; "\bper year\b";
       "\bbilled yearly\b"; "\brenews yearly\b"; "/\s*yr\b"; "/\s*year\b";
       "\b12 months\b"]);
    ("quarterly",
      ["\bquarterly\b"; "\bevery 3 months\b"; "\b3 months\b"]);
    ("semi_annual",
      ["\bsemi[- ]?annual\b"; "\bevery 6 months\b"; "\b6 months\b"]) ].

(** *** Helper functions *)

Definition normalize_html_amounts (html : string) : string :=
  let clean := sub false (pattern "<[^>]+>") (fun _ => " ") html in
  sub false (pattern "(?<=\d)\s+(?=\d)") (fun _ => "") clean.

(** [is_valid_amount(amt)], for a numeral [amt] (digits with at most one
    point), as its caller passes. *)
Definition is_valid_amount (amt : string) : bool :=
  let amt_float := float_of amt in
  if below_ten amt_float then false
  else if above_limit amt_float then false
  else true.

(** The month, a blank and the year: [f"{m.group(1)} {m.group(2)}"]. *)
Definition month_and_year (m : caps) : string :=
  group 1 m ++ " " ++ group 2 m.

Definition normalize_broken_dates (text : string) : string :=
  let text :=
    sub true
      (pattern "\b(jan|feb|mar|apr|may|jun|jul|aug|sep|oct|nov|dec)[a-z]*\s+\d{1,2},\s*\n\s*(\d{4})")
      month_and_year text in
  replace line_feed " " (replace crlf " " (replace "<br>" " " text)).

(** *** Amount *)

Definition AMOUNT_PATTERNS : list string :=
  [ "(?:rs\.?|inr|₹)\s*([0-9]{1,3}(?:[, ]?\d{2,3})*(?:\.\d{1,2})?)";
    "([0-9]{1,3}(?:[, ]?\d{2,3})*(?:\.\d{1,2})?)\s*(?:rs\.?|inr|₹)";
    "(?:usd|us\$|\$)\s*([0-9]{1,3}(?:[, ]?\d{2,3})*(?:\.\d{1,2})?)";
    "([0-9]{1,3}(?:[, ]?\d{2,3})*(?:\.\d{1,2})?)\s*(?:usd|us\$|\$)";
    "\btotal[: ]*([0-9]{1,3}(?:[, ]?\d{2,3})*(?:\.\d{1,2})?)\b";
    "\bamount(?: paid| due| charged)?[: ]*([0-9]{1,3}(?:[, ]?\d{2,3})*(?:\.\d{1,2})?)" ].

Inductive source : Type := html_source | text_source.

(** The text of one match with separators and currency tokens removed. *)
Definition cleaned (m : string) : string :=
  strip (replace "usd" "" (replace "us$" "" (replace "$" "" (replace "," "" (lower m))))).

(** The candidates one view of the mail gives, pattern by pattern. *)
Definition candidates_of (src : source) (view : string) : list (source * decimal) :=
  flat_map
    (fun p =>
       flat_map
         (fun m =>
            let amt := cleaned m in
            if isdigit (replace_first "." "" amt) && is_valid_amount amt
            then [(src, float_of amt)] else [])
         (findall true (pattern p) view))
    AMOUNT_PATTERNS.

Definition score_candidate (subject_lower text_lower : string)
    (c : source * decimal) : decimal * float :=
  let (src, amt) := c in
  let score := match src with html_source => 0.4 | text_source => 0.3 end%float in
  let score :=
    if any_in ["invoice"; "receipt"; "order"; "payment"] subject_lower
    then (score + 0.3)%float else score in
  let score :=
    if any_in ["total"; "amount"; "paid"; "charged"; "transaction"] text_lower
    then (score + 0.2)%float else score in
  let score :=
    if contains (repr amt ++ "%") text_lower
    then (score - 0.5)%float else score in
  (amt, score).

(** [max(scored, key=lambda x: x[1])]: the first of the greatest. *)
Fixpoint max_by_score (cur : decimal * float) (l : list (decimal * float))
    : decimal * float :=
  match l with
  | [] => cur
  | x :: l' => max_by_score (if (snd cur <? snd x)%float then x else cur) l'
  end.

Definition extract_amount (text html subject : string) : option string * float :=
  let subject_lower := lower subject in
  let text_lower := lower text in
  let normalized_html := normalize_html_amounts html in
  let candidates :=
    (candidates_of html_source normalized_html
     ++ candidates_of text_source text_lower)%list in
  match map (score_candidate subject_lower text_lower) candidates with
  | [] => (None, 0%float)
  | first :: others =>
      let (best_amount, best_score) := max_by_score first others in
      if (best_score <? 0.45)%float then (None, 0%float)
      else (Some (repr best_amount), round3 (py_min best_score 1))
  end.

(** *** Date *)

Definition extract_date (text html meta_date subject : string)
    : option string * float :=
  let clean_html := normalize_broken_dates html in
  let clean_text := normalize_broken_dates text in
  match search true DATE_REGEX clean_html with
  | Some m =>
      let confidence := 0.6%float in
      let confidence :=
        if any_in RECEIPT_META subject then (confidence + 0.2)%float
        else confidence in
      (Some (whole m), py_min confidence 1)
  | None =>
      match search true DATE_REGEX clean_text with
      | Some m => (Some (whole m), 0.6%float)
      | None =>
          if any_in RECEIPT_META subject then (Some meta_date, 0.5%float)
          else (None, 0%float)
      end
  end.

(** *** Frequency *)

Record date : Type := { year : Z; month : Z; day : Z }.

Local Open Scope Z_scope.

Definition is_leap (y : Z) : bool :=
  (y mod 4 =? 0) && (negb (y mod 100 =? 0) || (y mod 400 =? 0)).

Definition days_in_month (y m : Z) : Z :=
  if m =? 2 then (if is_leap y then 29 else 28)
  else if (m =? 4) || (m =? 6) || (m =? 9) || (m =? 11) then 30
  else 31.

Definition days_before_year (y : Z) : Z :=
  let y := y - 1 in
  y * 365 + y / 4 - y / 100 + y / 400.

(** The days of the months before month [m], counted over [n] months. *)
Fixpoint days_of_months (y : Z) (n : nat) : Z :=
  match n with
  | O => 0
  | S k => days_of_months y k + days_in_month y (Z.of_nat n)
  end.

Definition days_before_month (y m : Z) : Z :=
  days_of_months y (Z.to_nat (m - 1)).

(** [d.toordinal()] *)
Definition toordinal (d : date) : Z :=
  days_before_year (year d) + days_before_month (year d) (month d) + day d.

(** The pattern [datetime.strptime] builds for the format ["%d/%m/%Y"]. *)
Definition DMY_FORMAT : regex :=
  pattern "(3[0-1]|[1-2]\d|0[1-9]|[1-9]| [1-9])/(1[0-2]|0[1-9]|[1-9])/(\d\d\d\d)".

Definition int_of (s : string) : Z := Z.of_N (N_of_digits 0 s).

(** [datetime.strptime(s, "%d/%m/%Y")]; [None] is a [ValueError]: the text
    does not match the format, has text left after it, or names no day of
    the calendar. *)
Definition strptime (s : string) : option date :=
  match run true DMY_FORMAT None s [] accept with
  | Some ("", g) =>
      let d := {| year := int_of (group 3 g); month := int_of (group 2 g);
                  day := int_of (group 1 g) |} in
      if (1 <=? year d) && (1 <=? month d) && (month d <=? 12)
         && (1 <=? day d) && (day d <=? days_in_month (year d) (month d))
      then Some d else None
  | _ => None
  end.

Local Close Scope Z_scope.

(** Step 1: the first frequency one of whose patterns is found. *)
Definition direct_frequency (text : string) : option string :=
  option_map fst
    (find (fun fp => existsb (fun p => matches false (pattern p) text) (snd fp))
          FREQ_PATTERNS).

(** Steps 2 and 3: pricing shorthand, then "renews on" with a period. *)
Definition shorthand_frequency (text : string) : option (string * float) :=
  if matches false (pattern "/\s*(mo|mon|month)") text then Some ("monthly", 0.85%float)
  else if matches false (pattern "/\s*(yr|year)") text then Some ("yearly", 0.85%float)
  else if matches false (pattern "/\s*wk") text then Some ("weekly", 0.85%float)
  else if contains "renews on" text && contains "month" text then Some ("monthly", 0.7%float)
  else if contains "renews on" text && contains "year" text then Some ("yearly", 0.7%float)
  else None.

Definition date_matches (text : string) : list string :=
  findall false (pattern "\b(\d{1,2}[-/]\d{1,2}[-/]\d{2,4})\b") text.

(** Step 4; [None] when the [try] block returns nothing, a [ValueError]
    of [strptime] included. *)
Definition interval_frequency (text : string) : option (string * float) :=
  match date_matches text with
  | t1 :: t2 :: _ =>
      match strptime t1, strptime t2 with
      | Some d1, Some d2 =>
          let diff := Z.abs (toordinal d2 - toordinal d1) in
          if (27 <=? diff)%Z && (diff <=? 33)%Z then Some ("monthly", 0.75%float)
          else if (350 <=? diff)%Z && (diff <=? 380)%Z then Some ("yearly", 0.75%float)
          else if (6 <=? diff)%Z && (diff <=? 8)%Z then Some ("weekly", 0.75%float)
          else None
      | _, _ => None
      end
  | _ => None
  end.

Definition extract_frequency (text : string) : option string * float :=
  let text := lower text in
  match direct_frequency text with
  | Some freq => (Some freq, 0.9%float)
  | None =>
      match shorthand_frequency text with
      | Some (freq, conf) => (Some freq, conf)
      | None =>
          match interval_frequency text with
          | Some (freq, conf) => (Some freq, conf)
          | None => (None, 0%float)
          end
      end
  end.

(** *** Receipt and type *)

Definition is_receipt (text html subject : string) : bool :=
  let text_lower := lower text in
  let subject_lower := lower subject in
  let score := 0%Z in
  let (extracted_amount, amt_conf) := extract_amount text html subject in
  let score :=
    match extracted_amount with
    | Some _ => if (0.4 <=? amt_conf)%float then (score + 2)%Z else score
    | None => score
    end in
  let score :=
    if matches true DATE_REGEX html || matches true DATE_REGEX text_lower
    then (score + 1)%Z else score in
  let score :=
    if matches true ID_REGEX text_lower then (score + 1)%Z else score in
  let receipt_keywords :=
    ["invoice"; "payment"; "receipt"; "order"; "transaction"; "confirmed";
     "thank you"; "you've made a purchase"; "purchase"] in
  let score :=
    if any_in receipt_keywords subject_lower then (score + 1)%Z else score in
  let body_keywords :=
    ["payment"; "transaction"; "order"; "billed"; "charged"; "thank";
     "purchase"; "purchased"] in
  let score :=
    if any_in body_keywords text_lower then (score + 1)%Z else score in
  let promo_words := ["offer"; "save"; "discount"; "sale"; "cashback"] in
  let score :=
    if any_in promo_words subject_lower then (score - 1)%Z else score in
  let score :=
    if any_in promo_words text_lower then (score - 1)%Z else score in
  (3 <=? score)%Z.

Inductive mail_type : Type := subscription | purchase | others.

Definition classify_type (text html subject : string) : mail_type :=
  let text_lower := lower text in
  if any_in RECURRING_KEYWORDS text_lower then subscription
  else if negb (is_receipt text html subject) then others
  else purchase.

(** The sum [score] of [receipt_negation_confidence] before it is clamped
    and rounded. *)
Definition receipt_negation_score (text html subject : string) : float :=
  let score := 0%float in
  let subject := lower subject in
  let text := lower text in
  let score :=
    if negb (any_in RECEIPT_META subject) then (score + 0.4)%float else score in
  let (amt, amt_conf) := extract_amount text html subject in
  let score :=
    match amt with None => (score + 0.4)%float | Some _ => score end in
  let score :=
    if negb (matches true ID_REGEX text) then (score + 0.2)%float else score in
  score.

Definition receipt_negation_confidence (text html subject : string) : float :=
  round3 (py_min (receipt_negation_score text html subject) 1).

(** *** Brand *)

(** The outcome of a call that may raise. *)
Inductive outcome (A : Type) : Type :=
| Returns (a : A)
| Raises.
Arguments Raises {A}.

Record weights : Type :=
  { w_pattern : option float; w_sender : option float; w_subject : option float }.

Definition GATEWAYS : list string :=
  ["razorpay"; "stripe"; "cashfree"; "ccavenue"; "payu"; "paypal"; "google_play"].

Definition is_gateway (brand : string) : bool :=
  existsb (String.eqb brand) GATEWAYS.

Section Registry.

(** A pattern as brands.json holds it, and [re.search(p, text,
    flags=re.IGNORECASE)] on it: whether a match is found, or [None] when
    the call raises (the pattern does not compile). *)
Variable pat : Type.
Variable re_search : pat -> string -> option bool.

(** One entry of brands.json; an optional key is [None] when absent. *)
Record brand_data : Type :=
  { category : string;
    patterns : list pat;
    sender_domains : list string;
    subject_contains : list string;
    score_weights : option weights;
    priority : option Z }.

(** [BRANDS]: the entries in the order of the file, one per brand name. *)
Definition registry : Type := list (string * brand_data).

Variable BRANDS : registry.

(** [weights.get(key, default)] on [data.get("score_weights", defaults)] *)
Definition weight (data : brand_data) (key : weights -> option float)
    (default : float) : float :=
  match score_weights data with
  | Some w => match key w with Some x => x | None => default end
  | None => default
  end.

(** The [for p in patterns] loop: a pattern that raises is passed over. *)
Fixpoint pattern_found (text : string) (ps : list pat) : bool :=
  match ps with
  | [] => false
  | p :: ps' =>
      match re_search p text with
      | Some true => true
      | Some false | None => pattern_found text ps'
      end
  end.

Definition brand_score (text sender subject : string) (data : brand_data) : float :=
  let score := 0%float in
  let score :=
    if pattern_found text (patterns data)
    then (score + weight data w_pattern 0.5)%float else score in
  let sender_lower := lower sender in
  let score :=
    if existsb (fun d => contains (lower d) sender_lower) (sender_domains data)
    then (score + weight data w_sender 0.3)%float else score in
  let subject_lower := lower subject in
  let score :=
    if existsb (fun s => contains (lower s) subject_lower) (subject_contains data)
    then (score + weight data w_subject 0.2)%float else score in
  score.

(** [best_brand], [best_category], [best_score], [best_priority]. *)
Record best : Type :=
  { best_brand : option string; best_category : string;
    best_score : float; best_priority : Z }.

Definition no_brand : best :=
  {| best_brand := None; best_category := "others";
     best_score := 0%float; best_priority := (-1)%Z |}.

Definition consider (text sender subject : string) (b : best)
    (entry : string * brand_data) : best :=
  let (brand, data) := entry in
  let prio := match priority data with Some n => n | None => 1%Z end in
  let score := brand_score text sender subject data in
  if (best_score b <? score)%float
     || ((score =? best_score b)%float && (best_priority b <? prio)%Z)
  then {| best_brand := Some brand; best_category := category data;
          best_score := score; best_priority := prio |}
  else b.

Definition best_match (text sender subject : string) : best :=
  fold_left (consider text sender subject) BRANDS no_brand.

Definition weighted_brand_match (text sender subject : string)
    : option string * string :=
  let b := best_match text sender subject in
  if (best_score b <? 0.35)%float then (None, "others")
  else (best_brand b, best_category b).

Definition extract_brand_from_sender (sender : string) : option string :=
  let sender := lower sender in
  match search false (pattern "@([a-z0-9.-]+)\.(com|in|net|org|co)") sender with
  | None => None
  | Some m =>
      let domain := group 1 (groups m) in
      let brand := last_segment "." domain in
      if existsb (String.eqb brand)
           ["mail"; "info"; "support"; "billing"; "noreply"; "service"]
      then None else Some brand
  end.

Definition extract_brand_from_text (text : string) : option string :=
  let found := findall false (pattern "\b([A-Z][A-Za-z0-9& ]+)\b") text in
  let blacklist :=
    ["Dear"; "Invoice"; "Order"; "Payment"; "Statement"; "Receipt"; "Thank";
     "Regards"] in
  let kept :=
    map strip
      (filter (fun m => negb (existsb (String.eqb (strip m)) blacklist)) found) in
  match kept with
  | [] => None
  | m :: _ => Some m
  end.

(** [extract_brand_from_html]: the first short [alt] text BeautifulSoup finds. *)
Variable extract_brand_from_html : string -> option string.

(** The re-scan of [detect_brand]: a merchant pattern is searched with no
    [try] around it. *)
Fixpoint merchant_found (text : string) (ps : list pat) : outcome bool :=
  match ps with
  | [] => Returns false
  | p :: ps' =>
      match re_search p text with
      | None => Raises
      | Some true => Returns true
      | Some false => merchant_found text ps'
      end
  end.

Fixpoint first_merchant (text : string) (brands : registry)
    : outcome (option (string * string)) :=
  match brands with
  | [] => Returns None
  | (merchant, data) :: rest =>
      if is_gateway merchant then first_merchant text rest
      else
        match merchant_found text (patterns data) with
        | Raises => Raises
        | Returns true => Returns (Some (merchant, category data))
        | Returns false => first_merchant text rest
        end
  end.

Definition some_truthy (b : option string) : option string :=
  match b with
  | Some s => if truthy s then Some s else None
  | None => None
  end.

(** [detect_brand] after the gateway rule: the registry match, then the
    fallbacks. *)
Definition accept_or_infer (json_brand : option string) (json_category : string)
    (text html sender subject : string) : option string * string * float :=
  match some_truthy json_brand with
  | Some b => (Some b, json_category, 0.95%float)
  | None =>
      match some_truthy (extract_brand_from_sender sender) with
      | Some b => (Some b, "others", 0.75%float)
      | None =>
          match some_truthy (extract_brand_from_text (subject ++ " " ++ text)) with
          | Some b => (Some b, "others", 0.6%float)
          | None =>
              match some_truthy (extract_brand_from_html html) with
              | Some b => (Some b, "others", 0.7%float)
              | None => (None, "others", 0%float)
              end
          end
      end
  end.

Definition detect_brand (text html sender subject : string)
    : outcome (option string * string * float) :=
  let (json_brand, json_category) := weighted_brand_match text sender subject in
  let otherwise :=
    Returns (accept_or_infer json_brand json_category text html sender subject) in
  match json_brand with
  | Some g =>
      if is_gateway g then
        match first_merchant text BRANDS with
        | Raises => Raises
        | Returns (Some (merchant, cat)) => Returns (Some merchant, cat, 0.98%float)
        | Returns None => otherwise
        end
      else otherwise
  | None => otherwise
  end.

(** *** Main processor *)

(** [extract_text_and_html]: the lower-cased pretty-printed HTML and the
    lower-cased visible text BeautifulSoup gives (both the lower-cased body
    when it fails). *)
Variable extract_text_and_html : string -> string * string.

(** One record of output.json: the [metadata] keys read with a default of
    the empty string, and the body. *)
Record mail : Type :=
  { from : string; subject_line : string; date_line : string; body : string }.

(** The keys [process_mails] adds besides [brand], [category], [type] and
    [overall_confidence], by type. *)
Inductive details : Type :=
| others_details
| purchase_details
    (amount : option string) (amount_confidence : float)
    (date : option string) (date_confidence : float)
| subscription_details
    (amount : option string) (amount_confidence : float)
    (start_date : option string) (start_date_confidence : float)
    (frequency : option string) (frequency_confidence : float).

Record annotated : Type :=
  { brand : option string;
    brand_category : string;
    type : mail_type;
    overall_confidence : float;
    fields : details }.

(** [round(sum(conf_values) / len(conf_values), 3)] for the two confidences. *)
Definition mean_confidence (amount_conf date_conf : float) : float :=
  round3 ((0 + amount_conf + date_conf) / 2)%float.

(** The body of the loop of [process_mails] on one mail. *)
Definition process_mail (m : mail) : outcome annotated :=
  let sender := lower (from m) in
  let subject := lower (subject_line m) in
  let meta_date := date_line m in
  let (html, text) := extract_text_and_html (body m) in
  let raw_html := body m in
  match detect_brand text raw_html sender subject with
  | Raises => Raises
  | Returns (brand, category, brand_confidence) =>
      let mail_type := classify_type text html subject in
      match mail_type with
      | others =>
          Returns
            {| brand := brand; brand_category := category; type := mail_type;
               overall_confidence := receipt_negation_confidence text html subject;
               fields := others_details |}
      | _ =>
          let (amount, amount_conf) := extract_amount text html subject in
          let (date, date_conf) := extract_date text html meta_date subject in
          let fields :=
            match mail_type with
            | subscription =>
                let (freq, freq_conf) := extract_frequency text in
                subscription_details amount amount_conf date date_conf freq freq_conf
            | _ => purchase_details amount amount_conf date date_conf
            end in
          Returns
            {| brand := brand; brand_category := category; type := mail_type;
               overall_confidence := mean_confidence amount_conf date_conf;
               fields := fields |}
      end
  end.

End Registry.

(** *** The parameters on the modelled fragment

    [re.search(p, text, flags=re.IGNORECASE)] for a pattern text [p] of the
    fragment [Re.compile] reads ([None]: the pattern does not compile); the
    views of a body BeautifulSoup fails on; a body with no image. *)
Definition re_search (p text : string) : option bool :=
  option_map (fun r => matches true r text) (compile p).

Definition plain_views (body : string) : string * string :=
  (lower body, lower body).

Definition no_logo (html : string) : option string := None.

(** An entry of brands.json with its category and patterns only. *)
Definition simple_brand (cat : string) (ps : list string) : brand_data string :=
  {| category := cat; patterns := ps; sender_domains := [];
     subject_contains := []; score_weights := None; priority := None |}.

End Mails.

(* ================================================================= *)
(** ** Registries and mails the examples use *)

Module Examples.
Import Mails.
Local Open Scope string_scope.

Definition stripe_and_levis : registry string :=
  [ ("stripe", simple_brand "payments" ["stripe"]);
    ("levis", simple_brand "fashion" ["levi'?s"]) ].

Definition flipkart_only : registry string :=
  [ ("flipkart", simple_brand "shopping" ["flipkart"]) ].

Definition stripe_and_broken : registry string :=
  [ ("stripe", simple_brand "payments" ["stripe"]);
    ("acme", simple_brand "shopping" ["("]) ].

Definition acme_weighing (w : float) : registry string :=
  [ ("acme",
     {| category := "shopping"; patterns := ["acme"]; sender_domains := [];
        subject_contains := [];
        score_weights :=
          Some {| w_pattern := Some w; w_sender := None; w_subject := None |};
        priority := None |}) ].

Definition two_shops : registry string :=
  [ ("alpha", simple_brand "shopping" ["shop"]);
    ("beta",
     {| category := "retail"; patterns := ["shop"]; sender_domains := [];
        subject_contains := []; score_weights := None; priority := Some 5%Z |}) ].

Definition renewal_mail : mail :=
  {| from := "Billing@Netflix.com"; subject_line := "Your Netflix invoice";
     date_line := "Mon, 3 Nov 2025";
     body := "Your subscription renews monthly. Amount: Rs. 649 on 5 Nov 2025" |}.

End Examples.

(* ================================================================= *)
(** ** Notions the further properties are stated with *)

Module Aids.
Import Py Re Num Amount Mails.
Local Open Scope string_scope.

(** What the last two steps of [extract_amount] make of a score. *)
Definition verdict (score : float) : option float :=
  if (score <? 0.45)%float then None else Some (round3 (py_min score 1)).

(** An entry of the registry with other patterns. *)
Definition with_patterns (pat : Type) (data : brand_data pat) (ps : list pat)
    : brand_data pat :=
  {| category := category data; patterns := ps;
     sender_domains := sender_domains data;
     subject_contains := subject_contains data;
     score_weights := score_weights data; priority := priority data |}.

(** The selection so far is nothing, or a brand of [brands] with its
    category and score. *)
Definition selected_from (pat : Type) (re_search : pat -> string -> option bool)
    (text sender subject : string) (brands : registry pat) (b : best) : Prop :=
  best_brand b = None
  \/ exists name data,
       In (name, data) brands /\ best_brand b = Some name
       /\ best_category b = category data
       /\ best_score b = brand_score re_search text sender subject data.

(** [data.get("priority", 1)] *)
Definition priority_of (pat : Type) (data : brand_data pat) : Z :=
  match priority data with Some n => n | None => 1%Z end.

(** Against a brand of score [x] and priority [p] the selection [b] holds:
    [x] is not above the winning score and, when it equals it, [p] is not
    above the winning priority. *)
Definition holds_against (b : best) (xp : float * Z) : Prop :=
  (best_score b <? fst xp)%float = false
  /\ ((fst xp =? best_score b)%float = true ->
      (best_priority b <? snd xp)%Z = false).

End Aids.

(* ================================================================= *)
(** ** Facts about strings *)

Unset Implicit Arguments.

Module PyFacts.
Import Py.
Local Open Scope string_scope.

Lemma startswith_cons (n : ascii) (N : string) (c : ascii) (s : string) :
  startswith (String n N) (String c s) = Ascii.eqb n c && startswith N s.
Proof. reflexivity. Qed.

Lemma contains_cons (N : string) (c : ascii) (s : string) :
  contains N (String c s) = startswith N (String c s) || contains N s.
Proof. reflexivity. Qed.

Lemma startswith_contains (N s : string) :
  startswith N s = true -> contains N s = true.
Proof. destruct s; simpl; intros ->; reflexivity. Qed.

Lemma contains_tail (N : string) (c : ascii) (s : string) :
  contains N s = true -> contains N (String c s) = true.
Proof. intros H. rewrite contains_cons, H. apply orb_true_r. Qed.

(** A two-character needle is found only where its second character is. *)
Lemma contains_pair (a b : ascii) (s : string) :
  contains (String a (String b "")) s = true ->
  contains (String b "") s = true.
Proof.
  induction s as [|c s IH]; simpl; [discriminate|].
  intros H. apply orb_true_iff in H as [H|H].
  - apply andb_true_iff in H as [_ H].
    destruct s as [|d s]; [discriminate|].
    simpl in H. apply andb_true_iff in H as [H _].
    simpl. rewrite H. simpl. apply orb_true_r.
  - rewrite (IH H). apply orb_true_r.
Qed.

Lemma contains_app_l (c : ascii) (a b : string) :
  contains (String c "") a = true -> contains (String c "") (a ++ b) = true.
Proof.
  induction a as [|x a IH]; simpl; [discriminate|].
  intros H. apply orb_true_iff in H as [H|H].
  - rewrite H. reflexivity.
  - rewrite (IH H). apply orb_true_r.
Qed.

Lemma contains_app_r (c : ascii) (a b : string) :
  contains (String c "") b = true -> contains (String c "") (a ++ b) = true.
Proof.
  intros H. induction a as [|x a IH]; simpl; [exact H|].
  rewrite IH. apply orb_true_r.
Qed.

Lemma append_assoc (a b c : string) : (a ++ b) ++ c = a ++ b ++ c.
Proof. induction a as [|x a IH]; simpl; [reflexivity|now rewrite IH]. Qed.

Section Replace.
(** The needle [X] is replaced by the one character [sp]. *)
Variables (X : string) (sp : ascii).
Let new : string := String sp "".

Lemma replace_from_hit (c : ascii) (s : string) :
  startswith X (String c s) = true ->
  replace_from X new 0 (String c s)
  = String sp (replace_from X new (String.length X - 1) s).
Proof. intros H. simpl. simpl in H. rewrite H. reflexivity. Qed.

Lemma replace_from_miss (c : ascii) (s : string) :
  startswith X (String c s) = false ->
  replace_from X new 0 (String c s) = String c (replace_from X new 0 s).
Proof. intros H. simpl. simpl in H. rewrite H. reflexivity. Qed.

(** What the output starts with, the input started with, as long as it
    holds no [sp]. *)
Lemma startswith_replace (N : string) :
  contains new N = false ->
  forall s, startswith N (replace_from X new 0 s) = true -> startswith N s = true.
Proof.
  induction N as [|n N IH]; intros HN s H.
  - destruct s; reflexivity.
  - rewrite contains_cons in HN. apply orb_false_iff in HN as [Hn HN].
    simpl in Hn. rewrite andb_true_r in Hn.
    destruct s as [|c s]; [simpl in H; discriminate|].
    destruct (startswith X (String c s)) eqn:E.
    + rewrite (replace_from_hit _ _ E), startswith_cons in H.
      apply andb_true_iff in H as [H _].
      rewrite Ascii.eqb_sym, Hn in H. discriminate.
    + rewrite (replace_from_miss _ _ E), startswith_cons in H.
      apply andb_true_iff in H as [H1 H2].
      rewrite startswith_cons, H1, (IH HN s H2). reflexivity.
Qed.

(** Replacing creates no occurrence of a needle without [sp]. *)
Lemma contains_replace (N : string) :
  N <> "" -> contains new N = false ->
  forall s skip,
    contains N (replace_from X new skip s) = true -> contains N s = true.
Proof.
  intros Hne HN. induction s as [|c s IH]; intros skip H.
  - simpl in H. destruct N; [congruence|discriminate].
  - destruct skip as [|k].
    + destruct (startswith X (String c s)) eqn:E.
      * rewrite (replace_from_hit _ _ E), contains_cons in H.
        apply orb_true_iff in H as [H|H].
        -- destruct N as [|n N]; [congruence|].
           rewrite contains_cons in HN. apply orb_false_iff in HN as [Hn _].
           simpl in Hn. rewrite andb_true_r in Hn.
           rewrite startswith_cons in H. apply andb_true_iff in H as [H _].
           rewrite Ascii.eqb_sym, Hn in H. discriminate.
        -- apply contains_tail, (IH _ H).
      * pose proof H as H'.
        rewrite (replace_from_miss _ _ E), contains_cons in H.
        apply orb_true_iff in H as [H|H].
        -- rewrite <- (replace_from_miss _ _ E) in H.
           apply startswith_contains, (startswith_replace N HN _ H).
        -- apply contains_tail, (IH _ H).
    + simpl in H. apply contains_tail, (IH _ H).
Qed.

(** After the replacement the needle is gone. *)
Lemma replace_removes :
  X <> "" -> contains new X = false ->
  forall s skip, contains X (replace_from X new skip s) = false.
Proof.
  intros Hne HX. induction s as [|c s IH]; intros skip.
  - simpl. destruct X; [congruence|reflexivity].
  - destruct skip as [|k]; [|simpl; apply IH].
    destruct (startswith X (String c s)) eqn:E.
    + rewrite (replace_from_hit _ _ E), contains_cons, IH, orb_false_r.
      destruct X as [|x X']; [congruence|].
      rewrite contains_cons in HX. apply orb_false_iff in HX as [Hx _].
      simpl in Hx. rewrite andb_true_r in Hx.
      rewrite startswith_cons, Ascii.eqb_sym, Hx. reflexivity.
    + rewrite (replace_from_miss _ _ E), contains_cons, IH, orb_false_r.
      rewrite <- (replace_from_miss _ _ E).
      destruct (startswith X (replace_from X new 0 (String c s))) eqn:F;
        [|reflexivity].
      rewrite (startswith_replace X HX _ F) in E. discriminate.
Qed.

End Replace.

(** A text without the needle is left as it is. *)
Lemma replace_absent (X new s : string) :
  contains X s = false -> replace X new s = s.
Proof.
  unfold replace. induction s as [|c s IH]; intros H; [reflexivity|].
  rewrite contains_cons in H. apply orb_false_iff in H as [H1 H2].
  simpl. simpl in H1. rewrite H1, (IH H2). reflexivity.
Qed.

End PyFacts.

(* ================================================================= *)
(** ** Facts about the matcher *)

Module ReFacts.
Import Py Re PyFacts.
Local Open Scope string_scope.

Section Must.
Variable ic : bool.
Variable c : ascii.

#[local] Abbreviation only_char := (Re.only_char ic c).
#[local] Abbreviation must := (Re.must ic c).
#[local] Abbreviation passes := (Re.passes c).
#[local] Abbreviation goes_through := (Re.goes_through c).

Lemma only_char_sound (cs : charset) (a : ascii) :
  only_char cs = true -> char_ok ic cs a = true -> a = c.
Proof.
  unfold only_char. rewrite forallb_forall. intros H Ha.
  assert (Hin : In (code a) (seq 0 256)).
  { apply in_seq. pose proof (nat_ascii_bounded a). unfold code. lia. }
  apply H in Hin. unfold chr, code in Hin.
  rewrite ascii_nat_embedding, Ha in Hin. simpl in Hin.
  now apply Ascii.eqb_eq in Hin.
Qed.

Lemma passes_here (s : string) : passes s s false.
Proof. exists "". split; [reflexivity|discriminate]. Qed.

Lemma passes_weaken (s s' : string) (b b' : bool) :
  (b' = true -> b = true) -> passes s s' b -> passes s s' b'.
Proof. intros Hb (mid & E & H). exists mid. auto. Qed.

Lemma passes_trans (s s1 s2 : string) (b1 b2 : bool) :
  passes s s1 b1 -> passes s1 s2 b2 -> passes s s2 (b1 || b2).
Proof.
  intros (m1 & E1 & H1) (m2 & E2 & H2). exists (m1 ++ m2). split.
  - subst. now rewrite append_assoc.
  - intros H. apply orb_true_iff in H as [H|H].
    + apply contains_app_l; auto.
    + apply contains_app_r; auto.
Qed.

Lemma rep_loop_must (body : matcher) (need : bool) :
  goes_through body need ->
  forall fuel lo hi,
    goes_through (rep_loop body fuel lo hi) (negb (Nat.eqb lo 0) && need).
Proof.
  intros Hbody.
  assert (Hleave : forall lo prev s cs (k : cont) res,
    match lo with O => k prev s cs | S _ => None end = Some res ->
    exists prev' s' cs', k prev' s' cs' = Some res
      /\ passes s s' (negb (Nat.eqb lo 0) && need)).
  { intros [|lo] prev s cs k res H; [|discriminate].
    exists prev, s, cs. split; [exact H|apply passes_here]. }
  assert (Hround : forall fuel,
    (forall lo hi, goes_through (rep_loop body fuel lo hi)
                     (negb (Nat.eqb lo 0) && need)) ->
    forall lo hi prev s cs (k : cont) res,
      match
        body prev s cs (fun prev' s' cs' =>
          if Nat.ltb (String.length s') (String.length s)
          then rep_loop body fuel (Nat.pred lo) (option_map Nat.pred hi)
                 prev' s' cs' k
          else None)
      with
      | Some r => Some r
      | None => match lo with O => k prev s cs | S _ => None end
      end = Some res ->
      exists prev' s' cs', k prev' s' cs' = Some res
        /\ passes s s' (negb (Nat.eqb lo 0) && need)).
  { intros fuel IH lo hi prev s cs k res H.
    destruct (body prev s cs _) as [r|] eqn:E; [|now apply (Hleave lo prev s cs)].
    injection H as ->.
    apply Hbody in E as (p1 & s1 & cs1 & E & P1).
    destruct (Nat.ltb (String.length s1) (String.length s)); [|discriminate].
    apply IH in E as (p2 & s2 & cs2 & E & P2).
    exists p2, s2, cs2. split; [exact E|].
    apply (passes_weaken _ _ (need || (negb (Nat.eqb (Nat.pred lo) 0) && need))).
    - intros H. apply andb_true_iff in H as [_ ->]. reflexivity.
    - now apply (passes_trans _ s1). }
  induction fuel as [|fuel IH]; intros lo hi prev s cs k res H.
  - now apply (Hleave lo prev s cs).
  - simpl in H. destruct hi as [[|h]|].
    + now apply (Hleave lo prev s cs).
    + now apply (Hround fuel IH lo (Some (S h)) prev s cs).
    + now apply (Hround fuel IH lo None prev s cs).
Qed.

Lemma run_must (r : regex) : goes_through (run ic r) (must r).
Proof.
  induction r as [|set|r1 IH1 r2 IH2|r1 IH1 r2 IH2|r IH lo hi|i r IH| |set|set];
    intros prev s cs k res H; simpl in H.
  - exists prev, s, cs. split; [exact H|apply passes_here].
  - destruct s as [|a s]; [discriminate|].
    destruct (char_ok ic set a) eqn:E; [|discriminate].
    exists (Some a), s, cs. split; [exact H|].
    exists (String a ""). split; [reflexivity|].
    simpl. intros Hm. rewrite (only_char_sound set a Hm E), Ascii.eqb_refl.
    reflexivity.
  - apply IH1 in H as (p1 & s1 & cs1 & H & P1).
    apply IH2 in H as (p2 & s2 & cs2 & H & P2).
    exists p2, s2, cs2. split; [exact H|]. now apply (passes_trans _ s1).
  - destruct (run ic r1 prev s cs k) as [x|] eqn:E.
    + injection H as ->. apply IH1 in E as (p1 & s1 & cs1 & E & P).
      exists p1, s1, cs1. split; [exact E|].
      apply (passes_weaken _ _ (must r1)); [|exact P].
      simpl. intros Hm. now apply andb_true_iff in Hm.
    + apply IH2 in H as (p1 & s1 & cs1 & E' & P).
      exists p1, s1, cs1. split; [exact E'|].
      apply (passes_weaken _ _ (must r2)); [|exact P].
      simpl. intros Hm. now apply andb_true_iff in Hm.
  - now apply (rep_loop_must (run ic r) (must r) IH) in H.
  - apply IH in H as (p1 & s1 & cs1 & H & P). eauto 6.
  - destruct (xorb _ _); [|discriminate].
    exists prev, s, cs. split; [exact H|apply passes_here].
  - destruct prev as [a|]; [|discriminate].
    destruct (char_ok ic set a); [|discriminate].
    exists (Some a), s, cs. split; [exact H|apply passes_here].
  - destruct s as [|a s]; [discriminate|].
    destruct (char_ok ic set a); [|discriminate].
    exists prev, (String a s), cs. split; [exact H|apply passes_here].
Qed.

Lemma run_must_here (r : regex) (prev : option ascii) (s : string)
    (res : string * caps) :
  must r = true -> run ic r prev s [] accept = Some res ->
  contains (String c "") s = true.
Proof.
  intros Hm E.
  apply run_must in E as (p1 & s1 & cs1 & _ & mid & -> & P).
  apply contains_app_l, P, Hm.
Qed.

(** A pattern that has to go through [c] is found in no text without [c]. *)
Lemma scan_must (r : regex) :
  must r = true ->
  forall s prev m, scan ic r prev s = Some m -> contains (String c "") s = true.
Proof.
  intros Hm. induction s as [|a s IH]; intros prev m H; simpl in H.
  - destruct (run ic r prev "" [] accept) as [res|] eqn:E; [|discriminate].
    apply (run_must_here _ _ _ _ Hm E).
  - destruct (run ic r prev (String a s) [] accept) as [res|] eqn:E.
    + apply (run_must_here _ _ _ _ Hm E).
    + destruct (scan ic r (Some a) s) as [m'|] eqn:F; [|discriminate].
      apply contains_tail, (IH _ _ F).
Qed.

Lemma sub_absent (r : regex) (repl : caps -> string) (s : string) :
  must r = true -> contains (String c "") s = false -> sub ic r repl s = s.
Proof.
  intros Hm Hs. unfold sub. simpl.
  destruct (scan ic r None s) as [m|] eqn:E; [|reflexivity].
  apply (scan_must r Hm) in E. congruence.
Qed.

End Must.
End ReFacts.

(* ================================================================= *)
(** ** Order on floats *)

Module FloatFacts.
Import Num.
Local Open Scope float_scope.

(** Two floats that differ are told apart by their bits. *)
Lemma float_neq (x y : float) : Prim2SF x <> Prim2SF y -> x <> y.
Proof. intros H E. apply H. now rewrite E. Qed.

Lemma SFcompare_antisym (a b : spec_float) :
  SFcompare b a = option_map CompOpp (SFcompare a b).
Proof.
  destruct a as [s1|s1| |s1 m1 e1], b as [s2|s2| |s2 m2 e2]; simpl;
    try reflexivity; try (destruct s1; reflexivity);
    try (destruct s2; reflexivity); try (destruct s1, s2; reflexivity).
  rewrite (Z.compare_antisym e1 e2).
  destruct s1, s2; simpl; try reflexivity;
    destruct (e1 ?= e2)%Z; simpl; try reflexivity;
    change (PosDef.Pos.compare_cont Eq) with Pos.compare;
    rewrite (Pos.compare_antisym m1 m2);
    destruct (Pos.compare m1 m2); reflexivity.
Qed.

Lemma SFcompare_none (a b : spec_float) :
  SFcompare a b = None -> a = S754_nan \/ b = S754_nan.
Proof.
  destruct a, b; simpl; intros H; try discriminate; auto.
Qed.

Lemma ltb_not_nan (x y : float) : (x <? y) = true -> not_nan x /\ not_nan y.
Proof.
  rewrite ltb_spec. unfold SFltb, not_nan.
  destruct (Prim2SF x), (Prim2SF y); simpl; intros H;
    try discriminate; split; discriminate.
Qed.

Lemma eqb_not_nan (x y : float) : (x =? y) = true -> not_nan x /\ not_nan y.
Proof.
  rewrite FloatAxioms.eqb_spec. unfold SFeqb, not_nan.
  destruct (Prim2SF x), (Prim2SF y); simpl; intros H;
    try discriminate; split; discriminate.
Qed.

(** On numbers, [y <= x] is the negation of [x < y]. *)
Lemma leb_negb_ltb (x y : float) :
  not_nan x -> not_nan y -> (y <=? x) = negb (x <? y).
Proof.
  unfold not_nan. intros Hx Hy. rewrite leb_spec, ltb_spec.
  unfold SFleb, SFltb. rewrite (SFcompare_antisym (Prim2SF x) (Prim2SF y)).
  destruct (SFcompare (Prim2SF x) (Prim2SF y)) as [[| |]|] eqn:E;
    try reflexivity.
  apply SFcompare_none in E as [E|E]; contradiction.
Qed.

End FloatFacts.

(* ================================================================= *)
(** ** The patterns of the source *)

Module PatternFacts.
Import Py Re Mails.
Local Open Scope string_scope.

Definition compiles (p : string) : bool :=
  match compile p with Some _ => true | None => false end.

(** Every pattern the program writes is in the fragment [compile] reads. *)
Lemma patterns_compile :
  forallb compiles
    ([ DATE_PATTERN;
       "(order id|transaction id|txn id|utr|folio|invoice number|invoice no)";
       "<[^>]+>";
       "(?<=\d)\s+(?=\d)";
       "\b(jan|feb|mar|apr|may|jun|jul|aug|sep|oct|nov|dec)[a-z]*\s+\d{1,2},\s*\n\s*(\d{4})";
       "/\s*(mo|mon|month)"; "/\s*(yr|year)"; "/\s*wk";
       "\b(\d{1,2}[-/]\d{1,2}[-/]\d{2,4})\b";
       "(3[0-1]|[1-2]\d|0[1-9]|[1-9]| [1-9])/(1[0-2]|0[1-9]|[1-9])/(\d\d\d\d)";
       "@([a-z0-9.-]+)\.(com|in|net|org|co)";
       "\b([A-Z][A-Za-z0-9& ]+)\b" ]
     ++ AMOUNT_PATTERNS ++ flat_map snd FREQ_PATTERNS)%list
  = true.
Proof. vm_compute. reflexivity. Qed.

(** The groups are numbered by their opening parenthesis: in the pattern of
    [normalize_broken_dates] group 1 is the month alone and group 2 the
    year. *)
Lemma broken_date_groups :
  option_map (fun m => (whole m, group 1 (groups m), group 2 (groups m)))
    (search true
       (pattern "\b(jan|feb|mar|apr|may|jun|jul|aug|sep|oct|nov|dec)[a-z]*\s+\d{1,2},\s*\n\s*(\d{4})")
       ("on November 14," ++ line_feed ++ "2025."))
  = Some ("November 14," ++ line_feed ++ "2025", "Nov", "2025").
Proof. vm_compute. reflexivity. Qed.

End PatternFacts.

(* ================================================================= *)
(** ** The text normalizer *)

Module NormalizerFacts.
Import Py Re Mails PyFacts ReFacts.
Local Open Scope string_scope.

(** The output of [normalize_broken_dates] holds no line feed and no
    ["<br>"]. *)
Lemma normalized_no_line_feed (text : string) :
  contains line_feed (normalize_broken_dates text) = false.
Proof.
  unfold normalize_broken_dates, replace.
  apply replace_removes; [discriminate|reflexivity].
Qed.

Lemma normalized_no_br (text : string) :
  contains "<br>" (normalize_broken_dates text) = false.
Proof.
  destruct (contains "<br>" (normalize_broken_dates text)) eqn:E; [|reflexivity].
  unfold normalize_broken_dates, replace in E.
  apply (contains_replace line_feed " " "<br>") in E;
    [|discriminate|reflexivity].
  apply (contains_replace crlf " " "<br>") in E; [|discriminate|reflexivity].
  rewrite (replace_removes "<br>" " ") in E; [discriminate|discriminate|reflexivity].
Qed.

(** On such a text every step of [normalize_broken_dates] does nothing. *)
Lemma normalize_stable (u : string) :
  contains line_feed u = false -> contains "<br>" u = false ->
  normalize_broken_dates u = u.
Proof.
  intros HLF Hbr. unfold normalize_broken_dates.
  rewrite (sub_absent true LF); [|vm_compute; reflexivity|exact HLF].
  rewrite (replace_absent "<br>" " " u Hbr).
  rewrite (replace_absent crlf " " u).
  - apply replace_absent, HLF.
  - destruct (contains crlf u) eqn:E; [|reflexivity].
    apply contains_pair in E. unfold line_feed in HLF. congruence.
Qed.

(** C9: [normalize_broken_dates] (the spec's joinBrokenDateLines) is
    idempotent: applied twice it gives what it gives applied once, for
    every text. *)
Theorem normalize_broken_dates_idempotent (text : string) :
  normalize_broken_dates (normalize_broken_dates text)
  = normalize_broken_dates text.
Proof.
  apply normalize_stable.
  - apply normalized_no_line_feed.
  - apply normalized_no_br.
Qed.

(** C8: on the docstring's own example, a month and day, a comma, a line
    feed and the year, the replacement keeps the month and the year and
    drops the day: the output is ["Nov 2025"], not ["Nov 14, 2025"], and it
    holds no ["14"]. *)
Theorem normalize_broken_dates_drops_day :
  normalize_broken_dates ("Nov 14," ++ line_feed ++ "2025") = "Nov 2025"
  /\ normalize_broken_dates ("nov 14," ++ line_feed ++ "2025") = "nov 2025"
  /\ contains "14"
       (normalize_broken_dates ("nov 14," ++ line_feed ++ "2025")) = false.
Proof. repeat split; vm_compute; reflexivity. Qed.

End NormalizerFacts.

(* ================================================================= *)
(** ** The frequency extractor *)

Module FrequencyFacts.
Import Py Re Mails.
Local Open Scope string_scope.
Local Open Scope Z_scope.

Ltac decide_bounds :=
  repeat match goal with
         | |- context [(?a <=? ?b)%Z] => destruct (Z.leb_spec a b); try lia
         end.

(** C5: when steps 1 to 3 find nothing and the text holds at least two date
    tokens, the first two are read as day/month/year by [strptime] and the
    absolute difference [d] of their day numbers decides: 27..33 gives
    monthly, 350..380 yearly, 6..8 weekly, each at 0.75; when either token
    fails to parse the extractor returns absent at 0.0 (it is a total
    function: nothing is raised). *)
Theorem extract_frequency_date_interval
    (text t1 t2 : string) (more : list string) :
  direct_frequency (lower text) = None ->
  shorthand_frequency (lower text) = None ->
  date_matches (lower text) = t1 :: t2 :: more ->
  (forall d1 d2,
      strptime t1 = Some d1 -> strptime t2 = Some d2 ->
      let d := Z.abs (toordinal d2 - toordinal d1) in
      (27 <= d <= 33 -> extract_frequency text = (Some "monthly", 0.75%float))
      /\ (350 <= d <= 380 -> extract_frequency text = (Some "yearly", 0.75%float))
      /\ (6 <= d <= 8 -> extract_frequency text = (Some "weekly", 0.75%float)))
  /\ (strptime t1 = None \/ strptime t2 = None ->
      extract_frequency text = (None, 0%float)).
Proof.
  intros H1 H2 H3. unfold extract_frequency, interval_frequency.
  rewrite H1, H2, H3. split.
  - intros d1 d2 E1 E2. cbv zeta. rewrite E1, E2.
    set (d := Z.abs (toordinal d2 - toordinal d1)).
    repeat split; intros Hd; decide_bounds; reflexivity.
  - intros [E|E]; rewrite E; [reflexivity|].
    destruct (strptime t1); reflexivity.
Qed.

(** What [strptime] returns is a day of the calendar. *)
Lemma strptime_valid (s : string) (d : date) :
  strptime s = Some d ->
  1 <= year d /\ 1 <= month d <= 12 /\ 1 <= day d <= days_in_month (year d) (month d).
Proof.
  unfold strptime.
  destruct (run true DMY_FORMAT None s [] accept) as [[[|c rest] g]|];
    try discriminate.
  destruct (_ && _) eqn:E; [|discriminate].
  intros H. injection H as <-.
  repeat (apply andb_true_iff in E as [E ?]).
  cbn [year month day] in *. lia.
Qed.

(** The spec's example: 01/01/2024 and 31/01/2024 are thirty days apart. *)
Lemma extract_frequency_date_interval_witness :
  strptime "01/01/2024" = Some {| year := 2024; month := 1; day := 1 |}
  /\ strptime "31/01/2024" = Some {| year := 2024; month := 1; day := 31 |}
  /\ extract_frequency "Next billing 01/01/2024 then 31/01/2024"
     = (Some "monthly", 0.75%float).
Proof.
  split; [vm_compute; reflexivity|]. split; [vm_compute; reflexivity|].
  refine (proj1 (proj1 (extract_frequency_date_interval
            "Next billing 01/01/2024 then 31/01/2024"
            "01/01/2024" "31/01/2024" [] _ _ _)
            {| year := 2024; month := 1; day := 1 |}
            {| year := 2024; month := 1; day := 31 |} _ _) _);
    try (vm_compute; reflexivity).
  vm_compute. split; discriminate.
Defined.

End FrequencyFacts.

(* ================================================================= *)
(** ** The amount extractor *)

Module AmountFacts.
Import Py Re Num Amount Mails.
Local Open Scope string_scope.

(** C3: in the text ["rs 500% cashback"] the amount 500 is followed by a
    percent sign, yet its candidate gets no penalty: the test looks for the
    printed float, ["500.0%"], which the text does not hold.  The score
    stays 0.3 + 0.3 and the amount is returned instead of being rejected. *)
Theorem percent_penalty_missed :
  contains "500%" (lower "rs 500% cashback") = true
  /\ candidates_of text_source (lower "rs 500% cashback")
     = [(text_source, float_of "500")]
  /\ repr (float_of "500") = "500.0"
  /\ score_candidate "invoice" "rs 500% cashback" (text_source, float_of "500")
     = (float_of "500", (0.3 + 0.3)%float)
  /\ extract_amount "rs 500% cashback" "" "invoice" = (Some "500.0", 0.6%float).
Proof. repeat split; vm_compute; reflexivity. Qed.

End AmountFacts.

(* ================================================================= *)
(** ** The type classifier and the negation scorer *)

Module ClassifierFacts.
Import Py Re Num Amount Mails PyFacts FloatFacts.
Local Open Scope string_scope.

Lemma startswith_lower (k s : string) :
  startswith k s = true -> startswith (lower k) (lower s) = true.
Proof.
  revert s. induction k as [|a k IH]; intros [|b s] H; simpl in *;
    try reflexivity; try discriminate.
  apply andb_true_iff in H as [H1 H2]. apply Ascii.eqb_eq in H1 as ->.
  now rewrite Ascii.eqb_refl, IH.
Qed.

Lemma contains_lower (k s : string) :
  contains k s = true -> contains (lower k) (lower s) = true.
Proof.
  induction s as [|c s IH]; intros H.
  - simpl in H. rewrite orb_false_r in H.
    apply (startswith_lower k "") in H. simpl in H |- *. now rewrite H.
  - rewrite contains_cons in H. apply orb_true_iff in H as [H|H].
    + apply (startswith_lower k (String c s)) in H.
      now apply startswith_contains.
    + simpl lower. now apply contains_tail, IH.
Qed.

(** A keyword found in the text is found in its lower case as well. *)
Lemma recurring_in_lower (text : string) :
  any_in RECURRING_KEYWORDS text = true ->
  any_in RECURRING_KEYWORDS (lower text) = true.
Proof.
  unfold any_in. rewrite !existsb_exists. intros (k & Hk & H).
  exists k. split; [exact Hk|].
  apply contains_lower in H.
  assert (E : lower k = k).
  { simpl in Hk. repeat (destruct Hk as [<-|Hk]; [reflexivity|]). destruct Hk. }
  now rewrite E in H.
Qed.

(** C6: a text that holds a recurring keyword is a subscription whatever
    [is_receipt] says of it (the code looks for the keywords in the
    lower-cased text, and a keyword found in the text as it stands is found
    there too); a text that holds none, in whatever case, is [others] when
    [is_receipt] is false and [purchase] when it is true; for a text in
    lower case, as the text view of a mail is, "none" is none in the text
    as it stands. *)
Theorem classify_type_recurring_override (text html subject : string) :
  (any_in RECURRING_KEYWORDS text = true ->
     classify_type text html subject = subscription)
  /\ (any_in RECURRING_KEYWORDS (lower text) = true ->
     classify_type text html subject = subscription)
  /\ (any_in RECURRING_KEYWORDS (lower text) = false ->
     (is_receipt text html subject = false ->
        classify_type text html subject = others)
     /\ (is_receipt text html subject = true ->
        classify_type text html subject = purchase))
  /\ (lower text = text -> any_in RECURRING_KEYWORDS text = false ->
     (is_receipt text html subject = false ->
        classify_type text html subject = others)
     /\ (is_receipt text html subject = true ->
        classify_type text html subject = purchase)).
Proof.
  unfold classify_type. split; [|split; [|split]].
  - intros H. now rewrite (recurring_in_lower text H).
  - now intros ->.
  - intros ->. split; now intros ->.
  - intros -> ->. split; now intros ->.
Qed.

(** The spec's example: "auto-renew" in a text that is no receipt. *)
Lemma classify_type_recurring_override_witness :
  is_receipt "your plan will auto-renew soon" "" "" = false
  /\ classify_type "your plan will auto-renew soon" "" "" = subscription
  /\ classify_type "see you soon" "" "" = others
  /\ classify_type "total: rs. 1500 order id 55" "" "your order confirmation"
     = purchase.
Proof.
  split; [vm_compute; reflexivity|]. split; [|split].
  - apply (proj1 (classify_type_recurring_override
                    "your plan will auto-renew soon" "" "")).
    vm_compute; reflexivity.
  - apply (proj1 (proj2 (proj2 (classify_type_recurring_override
                                  "see you soon" "" ""))));
      vm_compute; reflexivity.
  - apply (proj2 (proj2 (proj2 (classify_type_recurring_override
                    "total: rs. 1500 order id 55" "" "your order confirmation"))));
      vm_compute; reflexivity.
Defined.

Local Open Scope float_scope.

(** C10, as stated, fails: with a receipt word in the subject, no amount and
    no ID the sum is 0.4 + 0.2, which in binary64 is 0.6000000000000001 and
    none of the six values; it is the rounding that turns it into 0.6. *)
Lemma negation_sum_altered_by_rounding :
  receipt_negation_score "" "" "invoice" = 0.4 + 0.2
  /\ receipt_negation_confidence "" "" "invoice" = 0.6
  /\ receipt_negation_confidence "" "" "invoice"
     <> receipt_negation_score "" "" "invoice"
  /\ 0.4 + 0.2 <> 0.6.
Proof.
  split; [vm_compute; reflexivity|]. split; [vm_compute; reflexivity|].
  split; apply float_neq; vm_compute; discriminate.
Qed.

(** C10, amended: the scorer returns one of 0.0, 0.2, 0.4, 0.6, 0.8, 1.0 on
    every input, and the clamp never alters the sum; the rounding leaves
    the sum as it is except when the sum is 0.4 + 0.2, which it turns into
    0.6. *)
Theorem receipt_negation_confidence_values (text html subject : string) :
  let score := receipt_negation_score text html subject in
  let conf := receipt_negation_confidence text html subject in
  (conf = 0 \/ conf = 0.2 \/ conf = 0.4 \/ conf = 0.6 \/ conf = 0.8 \/ conf = 1)
  /\ py_min score 1 = score
  /\ (conf = score \/ (score = 0.4 + 0.2 /\ conf = 0.6)).
Proof.
  unfold receipt_negation_confidence, receipt_negation_score.
  destruct (any_in RECEIPT_META (lower subject));
    destruct (extract_amount (lower text) html (lower subject)) as [[amt|] conf];
    destruct (matches true ID_REGEX (lower text));
    vm_compute; intuition auto.
Qed.

End ClassifierFacts.

(* ================================================================= *)
(** ** The brand matcher *)

Module BrandFacts.
Import Py Re Num Amount Mails Examples FloatFacts.
Local Open Scope string_scope.

Section Registry.
Variable pat : Type.
Variable re_search : pat -> string -> option bool.
Variable BRANDS : registry pat.
Variable extract_brand_from_html : string -> option string.


(** *** The threshold *)

Lemma consider_not_nan (text sender subject : string) (b : best)
    (entry : string * brand_data pat) :
  not_nan (best_score b) ->
  not_nan (best_score (consider re_search text sender subject b entry)).
Proof.
  intros Hb. unfold consider. destruct entry as [brand data].
  destruct (_ || _) eqn:C; [|exact Hb]. simpl.
  apply orb_true_iff in C as [C|C].
  - apply (ltb_not_nan _ _ C).
  - apply andb_true_iff in C as [C _]. apply (eqb_not_nan _ _ C).
Qed.

Lemma best_score_not_nan (text sender subject : string) :
  not_nan (best_score (best_match re_search BRANDS text sender subject)).
Proof.
  unfold best_match.
  assert (H : not_nan (best_score no_brand)) by (vm_compute; discriminate).
  revert H. generalize no_brand.
  induction BRANDS as [|entry rest IH]; intros b Hb; simpl; [exact Hb|].
  apply IH, consider_not_nan, Hb.
Qed.

(** C7: the brand the weighted matcher selected is returned exactly when
    its winning score is at least 0.35: at [0.35 <= score] the selection is
    returned, at [score < 0.35] the result is absent with category
    "others", and one of the two holds on every registry and mail (the
    winning score is a number); a score of exactly 0.35 is accepted. *)
Theorem weighted_brand_match_threshold (text sender subject : string) :
  let b := best_match re_search BRANDS text sender subject in
  ((0.35 <=? best_score b)%float = true ->
     weighted_brand_match re_search BRANDS text sender subject = (best_brand b, best_category b))
  /\ ((best_score b <? 0.35)%float = true ->
     weighted_brand_match re_search BRANDS text sender subject = (None, "others"))
  /\ (0.35 <=? best_score b)%float = negb (best_score b <? 0.35)%float
  /\ (best_score b = 0.35%float ->
     weighted_brand_match re_search BRANDS text sender subject = (best_brand b, best_category b)).
Proof.
  intros b.
  assert (E : (0.35 <=? best_score b)%float = negb (best_score b <? 0.35)%float).
  { apply leb_negb_ltb; [apply best_score_not_nan|vm_compute; discriminate]. }
  unfold weighted_brand_match. fold b. repeat split.
  - rewrite E. intros H. apply negb_true_iff in H. now rewrite H.
  - now intros ->.
  - exact E.
  - intros H. rewrite H. reflexivity.
Qed.

(** *** The gateway rule *)

Lemma merchant_found_first (text : string) (ps1 ps2 : list pat) (p : pat) :
  (forall q, In q ps1 -> re_search q text = Some false) ->
  re_search p text = Some true ->
  merchant_found re_search text (ps1 ++ p :: ps2)%list = Returns true.
Proof.
  intros H Hp. induction ps1 as [|q ps1 IH]; simpl.
  - now rewrite Hp.
  - rewrite (H q) by now left. apply IH. intros q' Hq'. apply H. now right.
Qed.

Lemma merchant_found_none (text : string) (ps : list pat) :
  (forall q, In q ps -> re_search q text = Some false) ->
  merchant_found re_search text ps = Returns false.
Proof.
  intros H. induction ps as [|q ps IH]; simpl; [reflexivity|].
  rewrite (H q) by now left. apply IH. intros q' Hq'. apply H. now right.
Qed.

(** The re-scan returns the first non-gateway brand, in the order of the
    registry, one of whose patterns is found. *)
Lemma first_merchant_first (text : string) (pre post : registry pat)
    (m : string) (d : brand_data pat) (ps1 ps2 : list pat) (p : pat) :
  (forall m' d' q, In (m', d') pre -> is_gateway m' = false ->
     In q (patterns d') -> re_search q text = Some false) ->
  is_gateway m = false ->
  patterns d = (ps1 ++ p :: ps2)%list ->
  (forall q, In q ps1 -> re_search q text = Some false) ->
  re_search p text = Some true ->
  first_merchant re_search text (pre ++ (m, d) :: post)%list
  = Returns (Some (m, category d)).
Proof.
  intros Hpre Hm Hd Hps Hp. induction pre as [|[m' d'] pre IH]; simpl.
  - rewrite Hm, Hd, (merchant_found_first text ps1 ps2 p Hps Hp). reflexivity.
  - assert (IH' : first_merchant re_search text (pre ++ (m, d) :: post)%list
                  = Returns (Some (m, category d))).
    { apply IH. intros m0 d0 q Hin. apply Hpre. now right. }
    destruct (is_gateway m') eqn:G; [exact IH'|].
    rewrite merchant_found_none; [exact IH'|].
    intros q Hq. apply (Hpre m' d'); auto. now left.
Qed.

(** In the weighted matcher a pattern that raises is passed over: the
    brand is scored as if the pattern were not there. *)
Lemma pattern_found_skips (text : string) (ps1 ps2 : list pat) (bad : pat) :
  re_search bad text = None ->
  pattern_found re_search text (ps1 ++ bad :: ps2)%list
  = pattern_found re_search text (ps1 ++ ps2)%list.
Proof.
  intros Hbad. induction ps1 as [|q ps1 IH]; simpl.
  - now rewrite Hbad.
  - now rewrite IH.
Qed.

(** C1, amended: when the weighted matcher selects a gateway brand and a
    pattern of a non-gateway brand is found in the text (every pattern the
    re-scan searches before it compiling and failing to match), the first
    such brand in the order of the registry is returned with confidence
    0.98, whatever its own score; when the weighted matcher selects a brand
    that is no gateway, that brand is returned with confidence 0.95. *)
Theorem gateway_override (text html sender subject : string) :
  (forall g c pre post m d ps1 ps2 p,
      weighted_brand_match re_search BRANDS text sender subject = (Some g, c) ->
      is_gateway g = true ->
      BRANDS = (pre ++ (m, d) :: post)%list ->
      (forall m' d' q, In (m', d') pre -> is_gateway m' = false ->
         In q (patterns d') -> re_search q text = Some false) ->
      is_gateway m = false ->
      patterns d = (ps1 ++ p :: ps2)%list ->
      (forall q, In q ps1 -> re_search q text = Some false) ->
      re_search p text = Some true ->
      detect_brand re_search BRANDS extract_brand_from_html text html sender subject
      = Returns (Some m, category d, 0.98%float))
  /\ (forall b c,
      weighted_brand_match re_search BRANDS text sender subject = (Some b, c) ->
      is_gateway b = false -> truthy b = true ->
      detect_brand re_search BRANDS extract_brand_from_html text html sender subject = Returns (Some b, c, 0.95%float)).
Proof.
  split.
  - intros g c pre post m d ps1 ps2 p Hsel Hg Hreg Hpre Hm Hd Hps Hp.
    unfold detect_brand. rewrite Hsel, Hg.
    rewrite Hreg at 1.
    now rewrite (first_merchant_first text pre post m d ps1 ps2 p Hpre Hm Hd Hps Hp).
  - intros b c Hsel Hb Ht. unfold detect_brand. rewrite Hsel, Hb.
    unfold accept_or_infer, some_truthy. now rewrite Ht.
Qed.

End Registry.

(** The gateway rule at work: Stripe is selected (it comes first and both
    score 0.5), and the merchant is returned at 0.98. *)
Lemma gateway_override_witness :
  weighted_brand_match re_search stripe_and_levis "levis order paid via stripe" "" ""
  = (Some "stripe", "payments")
  /\ detect_brand re_search stripe_and_levis no_logo
       "levis order paid via stripe" "" "" ""
     = Returns (Some "levis", "fashion", 0.98%float).
Proof.
  split; [vm_compute; reflexivity|].
  apply (proj1 (gateway_override string re_search stripe_and_levis no_logo
                  "levis order paid via stripe" "" "" "")
           "stripe" "payments"
           [("stripe", simple_brand "payments" ["stripe"])] []
           "levis" (simple_brand "fashion" ["levi'?s"]) [] [] "levi'?s").
  - vm_compute; reflexivity.
  - reflexivity.
  - reflexivity.
  - intros m' d' q [E|[]] G. injection E as <- <-. vm_compute in G. discriminate.
  - reflexivity.
  - reflexivity.
  - intros q [].
  - vm_compute; reflexivity.
Defined.

(** C1, as stated, fails: the text matches a pattern of the non-gateway
    brand flipkart, and the brand is returned with confidence 0.95, not
    0.98 (no gateway was selected, so the gateway rule does not run). *)
Lemma gateway_override_counterexample :
  is_gateway "flipkart" = false
  /\ re_search "flipkart" "flipkart order" = Some true
  /\ detect_brand re_search flipkart_only no_logo "flipkart order" "" "" ""
     = Returns (Some "flipkart", "shopping", 0.95%float)
  /\ detect_brand re_search flipkart_only no_logo "flipkart order" "" "" ""
     <> Returns (Some "flipkart", "shopping", 0.98%float).
Proof.
  assert (E : detect_brand re_search flipkart_only no_logo "flipkart order" "" "" ""
              = Returns (Some "flipkart", "shopping", 0.95%float))
    by (vm_compute; reflexivity).
  repeat split; try (vm_compute; reflexivity).
  rewrite E. intros H.
  apply (f_equal (fun o => match o with
                           | Returns (_, _, conf) => conf
                           | Raises => 0%float
                           end)) in H.
  revert H. apply float_neq. vm_compute. discriminate.
Qed.

(** C4: a merchant whose pattern does not compile is passed over by the
    weighted matcher, which selects the gateway; the re-scan of
    [detect_brand] then searches the same pattern with no [try] around it,
    and the call raises. *)
Theorem detect_brand_raises_on_bad_pattern :
  re_search "(" "paid via stripe" = None
  /\ weighted_brand_match re_search stripe_and_broken "paid via stripe" "" ""
     = (Some "stripe", "payments")
  /\ detect_brand re_search stripe_and_broken no_logo "paid via stripe" "" "" ""
     = Raises.
Proof. repeat split; vm_compute; reflexivity. Qed.

(** A brand scoring exactly 0.35 is accepted, one scoring 0.349999 is not. *)
Lemma weighted_brand_match_threshold_witness :
  weighted_brand_match re_search (acme_weighing 0.35) "acme order" "" ""
  = (Some "acme", "shopping")
  /\ weighted_brand_match re_search (acme_weighing 0.349999) "acme order" "" ""
     = (None, "others").
Proof.
  split.
  - refine (eq_trans
              (proj1 (weighted_brand_match_threshold string re_search
                        (acme_weighing 0.35) "acme order" "" "") _) _);
      vm_compute; reflexivity.
  - refine (proj1 (proj2 (weighted_brand_match_threshold string re_search
                            (acme_weighing 0.349999) "acme order" "" "")) _).
    vm_compute; reflexivity.
Defined.

End BrandFacts.

(* ================================================================= *)
(** ** The main processor *)

Module ProcessorFacts.
Import Py Re Num Amount Mails Examples.
Local Open Scope string_scope.

Section Registry.
Variable pat : Type.
Variable re_search : pat -> string -> option bool.
Variable BRANDS : registry pat.
Variable extract_brand_from_html : string -> option string.
Variable extract_text_and_html : string -> string * string.

(** C2: for a mail classified as subscription the emitted
    [overall_confidence] is the mean of the emitted [amount_confidence] and
    [start_date_confidence] rounded to three decimals, the same function of
    the two as for a purchase mail, whatever [frequency_confidence] is. *)
Theorem overall_confidence_is_mean (m : mail) (r : annotated) :
  process_mail re_search BRANDS extract_brand_from_html extract_text_and_html m
  = Returns r ->
  (type r = subscription ->
     exists amount amount_conf start_date date_conf freq freq_conf,
       fields r = subscription_details amount amount_conf start_date date_conf
                    freq freq_conf
       /\ overall_confidence r = round3 ((0 + amount_conf + date_conf) / 2)%float
       /\ overall_confidence r = mean_confidence amount_conf date_conf)
  /\ (type r = purchase ->
     exists amount amount_conf date date_conf,
       fields r = purchase_details amount amount_conf date date_conf
       /\ overall_confidence r = mean_confidence amount_conf date_conf).
Proof.
  unfold process_mail.
  destruct (extract_text_and_html (body m)) as [html text].
  destruct (detect_brand _ _ _ _ _ _ _) as [[[b c] conf]|]; [|discriminate].
  destruct (extract_amount _ _ _) as [amount amount_conf].
  destruct (extract_date _ _ _ _) as [date date_conf].
  destruct (extract_frequency _) as [freq freq_conf].
  destruct (classify_type _ _ _); intros H; injection H as <-;
    cbn [type fields overall_confidence];
    split; intros T; try discriminate.
  - exists amount, amount_conf, date, date_conf, freq, freq_conf. auto.
  - exists amount, amount_conf, date, date_conf. auto.
Qed.

End Registry.

(** A subscription mail: amount at 0.9, date at 0.8, frequency at 0.9, and
    the overall confidence is 0.85. *)
Lemma overall_confidence_is_mean_witness :
  exists r,
    process_mail re_search [] no_logo plain_views renewal_mail = Returns r
    /\ fields r = subscription_details (Some "649.0") 0.9%float
                    (Some "5 nov 2025") 0.8%float (Some "monthly") 0.9%float
    /\ overall_confidence r = 0.85%float
    /\ exists amount amount_conf start_date date_conf freq freq_conf,
         fields r = subscription_details amount amount_conf start_date date_conf
                      freq freq_conf
         /\ overall_confidence r = round3 ((0 + amount_conf + date_conf) / 2)%float
         /\ overall_confidence r = mean_confidence amount_conf date_conf.
Proof.
  exists {| brand := Some "netflix"; brand_category := "others";
            type := subscription; overall_confidence := 0.85%float;
            fields := subscription_details (Some "649.0") 0.9%float
                        (Some "5 nov 2025") 0.8%float (Some "monthly") 0.9%float |}.
  split; [vm_compute; reflexivity|].
  split; [reflexivity|]. split; [reflexivity|].
  refine (proj1 (overall_confidence_is_mean string re_search [] no_logo
                   plain_views renewal_mail _ _) _);
    [vm_compute; reflexivity|reflexivity].
Defined.

End ProcessorFacts.

(* ================================================================= *)
(** ** More on the normalizer and on letter case *)

Module CaseFacts.
Import Py Re Num Amount Mails PyFacts NormalizerFacts.
Local Open Scope string_scope.

Lemma lower_char_idem (c : ascii) : lower_char (lower_char c) = lower_char c.
Proof.
  unfold lower_char. destruct (is_upper c) eqn:E; [|now rewrite E].
  unfold is_upper, between, chr, code in *.
  apply andb_true_iff in E as [E1 E2].
  apply Nat.leb_le in E1, E2.
  rewrite nat_ascii_embedding by lia.
  replace (Nat.leb (nat_of_ascii c + 32) 90) with false
    by (symmetry; apply Nat.leb_gt; lia).
  now rewrite andb_false_r.
Qed.

Lemma lower_idem (s : string) : lower (lower s) = lower s.
Proof.
  induction s as [|c s IH]; simpl; [reflexivity|].
  now rewrite lower_char_idem, IH.
Qed.

(** X1: the output of [normalize_broken_dates] holds none of the line-break
    markers it replaces: no line feed, no carriage return followed by a line
    feed, no ["<br>"]. *)
Theorem normalize_broken_dates_no_breaks (text : string) :
  contains line_feed (normalize_broken_dates text) = false
  /\ contains crlf (normalize_broken_dates text) = false
  /\ contains "<br>" (normalize_broken_dates text) = false.
Proof.
  split; [apply normalized_no_line_feed|]. split; [|apply normalized_no_br].
  destruct (contains crlf (normalize_broken_dates text)) eqn:E; [|reflexivity].
  apply contains_pair in E.
  pose proof (normalized_no_line_feed text) as H. unfold line_feed in H.
  congruence.
Qed.

(** X2: the letter case of the text and of the subject plays no part in
    the amount, the receipt decision, the type and the frequency: each
    function gives on the lower-cased text and subject what it gives on the
    originals. *)
Theorem extractors_ignore_case (text html subject : string) :
  extract_amount (lower text) html (lower subject)
  = extract_amount text html subject
  /\ is_receipt (lower text) html (lower subject) = is_receipt text html subject
  /\ classify_type (lower text) html (lower subject)
     = classify_type text html subject
  /\ extract_frequency (lower text) = extract_frequency text
  /\ receipt_negation_confidence (lower text) html (lower subject)
     = receipt_negation_confidence text html subject.
Proof.
  assert (A : extract_amount (lower text) html (lower subject)
              = extract_amount text html subject).
  { unfold extract_amount. now rewrite !lower_idem. }
  assert (R : is_receipt (lower text) html (lower subject)
              = is_receipt text html subject).
  { unfold is_receipt. now rewrite A, !lower_idem. }
  split; [exact A|]. split; [exact R|]. split; [|split].
  - unfold classify_type. now rewrite R, lower_idem.
  - unfold extract_frequency. now rewrite lower_idem.
  - unfold receipt_negation_confidence, receipt_negation_score.
    now rewrite !lower_idem.
Qed.

(** X3: whether a mail is a subscription is decided by its text alone: if
    [classify_type] says so for one html view and subject, it says so for
    all. *)
Theorem subscription_by_text_alone (text html subject html' subject' : string) :
  classify_type text html subject = subscription ->
  classify_type text html' subject' = subscription.
Proof.
  unfold classify_type.
  destruct (any_in RECURRING_KEYWORDS (lower text)); [reflexivity|].
  destruct (negb (is_receipt text html subject)); discriminate.
Qed.

Lemma subscription_by_text_alone_witness :
  classify_type "Your plan will auto-renew soon"
    "<p>total: rs. 500</p>" "invoice 5 nov 2025"
  = subscription.
Proof.
  apply (subscription_by_text_alone "Your plan will auto-renew soon" "" "").
  vm_compute. reflexivity.
Defined.

End CaseFacts.

(* ================================================================= *)
(** ** More on the amount extractor *)

Module AmountMore.
Import Py Re Num Amount Mails Aids.
Local Open Scope string_scope.

Lemma max_by_score_in (l : list (decimal * float)) :
  forall cur, In (max_by_score cur l) (cur :: l).
Proof.
  induction l as [|x l IH]; intros cur; simpl; [now left|].
  destruct (IH (if (snd cur <? snd x)%float then x else cur)) as [H|H].
  - destruct (snd cur <? snd x)%float; rewrite <- H; auto.
  - auto.
Qed.

Lemma verdict_of_candidate (subject_lower text_lower : string)
    (c : source * decimal) :
  let v := verdict (snd (score_candidate subject_lower text_lower c)) in
  v = None \/ v = Some 0.5%float \/ v = Some 0.6%float \/ v = Some 0.7%float
  \/ v = Some 0.8%float \/ v = Some 0.9%float.
Proof.
  destruct c as [src amt]. unfold score_candidate.
  destruct src;
    destruct (any_in _ subject_lower);
    destruct (any_in _ text_lower);
    destruct (contains _ text_lower);
    vm_compute; auto 10.
Qed.

(** The candidate [extract_amount] settles on, when there is one. *)
Lemma extract_amount_cases (text html subject : string) :
  extract_amount text html subject = (None, 0%float)
  \/ exists c,
       In c (candidates_of html_source (normalize_html_amounts html)
             ++ candidates_of text_source (lower text))%list
       /\ extract_amount text html subject
          = match verdict (snd (score_candidate (lower subject) (lower text) c)) with
            | None => (None, 0%float)
            | Some conf => (Some (repr (snd c)), conf)
            end.
Proof.
  unfold extract_amount.
  set (cands := (candidates_of _ _ ++ candidates_of _ _)%list).
  destruct (map (score_candidate (lower subject) (lower text)) cands)
    as [|first others] eqn:E; [now left|].
  right.
  pose proof (max_by_score_in others first) as Hin. rewrite <- E in Hin.
  apply in_map_iff in Hin as (c & Hc & Hin).
  exists c. split; [exact Hin|].
  destruct (max_by_score first others) as [best_amount best_score].
  assert (A : best_amount = snd c).
  { change best_amount with (fst (best_amount, best_score)). rewrite <- Hc.
    now destruct c. }
  unfold verdict. rewrite Hc, A. cbn [snd].
  now destruct (best_score <? 0.45)%float.
Qed.

(** X4: [extract_amount] returns either no amount at confidence 0.0 or an
    amount at one of the confidences 0.5, 0.6, 0.7, 0.8, 0.9: a returned
    amount is never below 0.5 (so the test [amt_conf >= 0.4] of
    [is_receipt] holds for every amount found) and the clamp to 1.0 never
    applies. *)
Theorem extract_amount_confidences (text html subject : string) :
  extract_amount text html subject = (None, 0%float)
  \/ exists amount conf,
       extract_amount text html subject = (Some amount, conf)
       /\ (conf = 0.5 \/ conf = 0.6 \/ conf = 0.7 \/ conf = 0.8 \/ conf = 0.9)%float
       /\ (0.4 <=? conf)%float = true.
Proof.
  destruct (extract_amount_cases text html subject) as [H|(c & _ & H)];
    [now left|].
  pose proof (verdict_of_candidate (lower subject) (lower text) c) as V.
  cbv zeta in V.
  destruct (verdict _) as [conf|]; [|now left].
  right. exists (repr (snd c)), conf. split; [exact H|].
  destruct V as [V|[V|[V|[V|[V|V]]]]]; try discriminate;
    injection V as ->; (split; [auto 6|vm_compute; reflexivity]).
Qed.

Lemma candidates_valid (src : source) (view : string) (c : source * decimal) :
  In c (candidates_of src view) ->
  exists amt,
    snd c = float_of amt
    /\ isdigit (replace_first "." "" amt) = true
    /\ is_valid_amount amt = true.
Proof.
  unfold candidates_of. intros H.
  apply in_flat_map in H as (p & _ & H).
  apply in_flat_map in H as (m & _ & H).
  destruct (isdigit _ && is_valid_amount _) eqn:E; [|destruct H].
  destruct H as [<-|[]]. apply andb_true_iff in E as [E1 E2].
  exists (cleaned m). auto.
Qed.

(** X5: an amount [extract_amount] returns is the printed value of a
    numeral made of digits and at most one point whose value lies between
    10 and 100,000,000, the bounds included. *)
Theorem extract_amount_in_range (text html subject amount : string)
    (conf : float) :
  extract_amount text html subject = (Some amount, conf) ->
  exists amt,
    amount = repr (float_of amt)
    /\ isdigit (replace_first "." "" amt) = true
    /\ (10 <= units (float_of amt) <= 100000000)%N
    /\ (units (float_of amt) = 100000000%N -> fraction (float_of amt) = "").
Proof.
  intros H.
  destruct (extract_amount_cases text html subject) as [E|(c & Hin & E)];
    [congruence|].
  rewrite E in H. destruct (verdict _); [|discriminate].
  injection H as <- _.
  assert (V : exists amt, snd c = float_of amt
                /\ isdigit (replace_first "." "" amt) = true
                /\ is_valid_amount amt = true).
  { apply in_app_or in Hin as [Hin|Hin]; eapply candidates_valid; eauto. }
  destruct V as (amt & -> & D & V). exists amt.
  split; [reflexivity|]. split; [exact D|].
  unfold is_valid_amount, below_ten, above_limit in V.
  destruct (units (float_of amt) <? 10)%N eqn:L; [discriminate|].
  destruct (100000000 <? units (float_of amt))%N eqn:U; [discriminate|].
  apply N.ltb_ge in L, U. split; [lia|].
  intros Eq. rewrite Eq, N.eqb_refl in V. cbn [orb andb] in V.
  destruct (fraction (float_of amt)); [reflexivity|].
  cbn [truthy] in V. discriminate.
Qed.

Lemma extract_amount_in_range_witness :
  exists amt,
    "12345.5" = repr (float_of amt)
    /\ isdigit (replace_first "." "" amt) = true
    /\ (10 <= units (float_of amt) <= 100000000)%N
    /\ (units (float_of amt) = 100000000%N -> fraction (float_of amt) = "").
Proof.
  apply (extract_amount_in_range "Paid Rs. 12,345.50 only" "" "Invoice"
           "12345.5" 0.8%float).
  vm_compute. reflexivity.
Defined.

End AmountMore.

(* ================================================================= *)
(** ** More on the date and frequency extractors *)

Module DateMore.
Import Py Re Num Amount Mails PyFacts ReFacts.
Local Open Scope string_scope.

Lemma length_append (a b : string) :
  String.length (a ++ b) = String.length a + String.length b.
Proof. induction a as [|x a IH]; simpl; [reflexivity|now rewrite IH]. Qed.

Lemma take_append (a b : string) : take (String.length a) (a ++ b) = a.
Proof. induction a as [|x a IH]; simpl; [now destruct b|now rewrite IH]. Qed.

Lemma startswith_append (w a : string) : startswith w (w ++ a) = true.
Proof.
  induction w as [|x w IH]; simpl; [now destruct a|].
  now rewrite Ascii.eqb_refl, IH.
Qed.

Lemma contains_middle (b w a : string) : contains w (b ++ w ++ a) = true.
Proof.
  induction b as [|x b IH]; simpl.
  - apply startswith_contains, startswith_append.
  - rewrite IH. apply orb_true_r.
Qed.

(** What a match leaves is the end of the text it was run on, and
    [m.group(0)] is what lies before it. *)
Lemma run_whole (ic : bool) (r : regex) (prev : option ascii) (s s' : string)
    (g : caps) :
  run ic r prev s [] accept = Some (s', g) ->
  s = take (String.length s - String.length s') s ++ s'.
Proof.
  intros H.
  apply (run_must ic "a"%char) in H as (p1 & s1 & cs1 & H & mid & E & _).
  injection H as -> _. subst s.
  rewrite length_append, Nat.add_sub. now rewrite take_append.
Qed.

Lemma scan_splits (ic : bool) (r : regex) (s : string) :
  forall prev m, scan ic r prev s = Some m -> s = before m ++ whole m ++ after m.
Proof.
  induction s as [|a s IH]; intros prev m H; simpl in H.
  - destruct (run ic r prev "" [] accept) as [[s' g]|] eqn:E; [|discriminate].
    injection H as <-. cbn [before whole after]. apply (run_whole _ _ _ _ _ _ E).
  - destruct (run ic r prev (String a s) [] accept) as [[s' g]|] eqn:E.
    + injection H as <-. cbn [before whole after].
      apply (run_whole _ _ _ _ _ _ E).
    + destruct (scan ic r (Some a) s) as [m'|] eqn:F; [|discriminate].
      injection H as <-. cbn [before whole after]. simpl. f_equal.
      apply (IH _ _ F).
Qed.

(** What [re.search] finds occurs in the text. *)
Lemma search_contains (ic : bool) (r : regex) (s : string) (m : found) :
  search ic r s = Some m -> contains (whole m) s = true.
Proof.
  intros H. apply scan_splits in H. rewrite H. apply contains_middle.
Qed.

(** X6: a date [extract_date] returns at confidence 0.8 or 0.6 is a piece
    of the html or of the text after [normalize_broken_dates] (at 0.8 of
    the html, with a receipt word in the subject); the only other date is
    the metadata date, at 0.5, when the subject holds a receipt word; with
    no date the confidence is 0.0. *)
Theorem extract_date_cases (text html meta_date subject : string) :
  (exists d,
      contains d (normalize_broken_dates html) = true
      /\ (any_in RECEIPT_META subject = true
          /\ extract_date text html meta_date subject = (Some d, 0.8%float)
          \/ any_in RECEIPT_META subject = false
             /\ extract_date text html meta_date subject = (Some d, 0.6%float)))
  \/ (exists d,
        contains d (normalize_broken_dates text) = true
        /\ extract_date text html meta_date subject = (Some d, 0.6%float))
  \/ (any_in RECEIPT_META subject = true
      /\ extract_date text html meta_date subject = (Some meta_date, 0.5%float))
  \/ (any_in RECEIPT_META subject = false
      /\ extract_date text html meta_date subject = (None, 0%float)).
Proof.
  unfold extract_date.
  destruct (search true DATE_REGEX (normalize_broken_dates html)) as [m|] eqn:H.
  - left. exists (whole m). split; [apply (search_contains _ _ _ _ H)|].
    destruct (any_in RECEIPT_META subject); [left|right];
      (split; [reflexivity|]); f_equal; vm_compute; reflexivity.
  - right.
    destruct (search true DATE_REGEX (normalize_broken_dates text)) as [m|] eqn:T.
    + left. exists (whole m). split; [apply (search_contains _ _ _ _ T)|reflexivity].
    + right. destruct (any_in RECEIPT_META subject); [left|right]; auto.
Qed.

(** X7: [extract_frequency] returns no frequency at confidence 0.0, or one
    of the five frequencies at 0.9, or monthly, yearly or weekly at 0.85 or
    0.75, or monthly or yearly at 0.7: quarterly and semi_annual come from
    the keyword patterns alone. *)
Theorem extract_frequency_values (text : string) :
  extract_frequency text = (None, 0%float)
  \/ exists freq conf,
       extract_frequency text = (Some freq, conf)
       /\ (conf = 0.9%float
           /\ In freq ["weekly"; "monthly"; "yearly"; "quarterly"; "semi_annual"]
           \/ (conf = 0.85%float \/ conf = 0.75%float)
              /\ In freq ["monthly"; "yearly"; "weekly"]
           \/ conf = 0.7%float /\ In freq ["monthly"; "yearly"]).
Proof.
  unfold extract_frequency.
  destruct (direct_frequency (lower text)) as [freq|] eqn:D.
  - right. exists freq, 0.9%float. split; [reflexivity|]. left.
    split; [reflexivity|].
    unfold direct_frequency in D.
    destruct (find _ FREQ_PATTERNS) as [fp|] eqn:F; [|discriminate].
    injection D as <-. apply find_some in F as [F _].
    simpl in F. repeat (destruct F as [<-|F]; [simpl; auto 6|]). destruct F.
  - unfold shorthand_frequency, interval_frequency.
    repeat match goal with
           | |- context [if ?b then _ else _] => destruct b
           | |- context [match date_matches ?t with _ => _ end] =>
               destruct (date_matches t) as [|? [|? ?]]
           | |- context [match strptime ?t with _ => _ end] =>
               destruct (strptime t)
           end;
      try (now left);
      right; do 2 eexists; (split; [reflexivity|]); simpl; auto 10.
Qed.

End DateMore.

(* ================================================================= *)
(** ** More on the order of floats *)

Module FloatMore.
Import Num FloatFacts.
Local Open Scope float_scope.

Ltac by_comparisons :=
  change (PosDef.Pos.compare_cont Eq) with Pos.compare in *;
  repeat match goal with
         | H : context [(?x ?= ?y)%Z] |- _ =>
             destruct (Z.compare_spec x y); simpl in H
         | |- context [(?x ?= ?y)%Z] => destruct (Z.compare_spec x y); simpl
         | H : context [Pos.compare ?x ?y] |- _ =>
             destruct (Pos.compare_spec x y); simpl in H
         | |- context [Pos.compare ?x ?y] =>
             destruct (Pos.compare_spec x y); simpl
         end;
  try discriminate; try reflexivity; try lia.

Lemma SFcompare_trans (a b c : spec_float) :
  SFcompare a b = Some Lt -> SFcompare b c = Some Lt -> SFcompare a c = Some Lt.
Proof.
  destruct a as [sa|sa| |sa ma ea], b as [sb|sb| |sb mb eb],
           c as [sc|sc| |sc mc ec];
    simpl; try discriminate;
    try destruct sa; try destruct sb; try destruct sc;
    simpl; try discriminate; try reflexivity;
    intros H1 H2; by_comparisons.
Qed.

Lemma SFcompare_eq_left (a b c : spec_float) :
  SFcompare a b = Some Eq -> SFcompare a c = SFcompare b c.
Proof.
  destruct a as [sa|sa| |sa ma ea], b as [sb|sb| |sb mb eb];
    simpl; try discriminate;
    try destruct sa; try destruct sb; simpl; try discriminate;
    try reflexivity; intros H;
    destruct c as [sc|sc| |sc mc ec]; simpl; try reflexivity;
    by_comparisons; subst; try reflexivity; try lia.
Qed.

Lemma ltb_trans (x y z : float) :
  (x <? y) = true -> (y <? z) = true -> (x <? z) = true.
Proof.
  rewrite !ltb_spec. unfold SFltb.
  destruct (SFcompare (Prim2SF x) (Prim2SF y)) as [[| |]|] eqn:A;
    try discriminate.
  destruct (SFcompare (Prim2SF y) (Prim2SF z)) as [[| |]|] eqn:B;
    try discriminate.
  now rewrite (SFcompare_trans _ _ _ A B).
Qed.

Lemma ltb_irrefl (x : float) : (x <? x) = false.
Proof.
  rewrite ltb_spec. unfold SFltb.
  pose proof (SFcompare_antisym (Prim2SF x) (Prim2SF x)) as H.
  destruct (SFcompare (Prim2SF x) (Prim2SF x)) as [[| |]|];
    try reflexivity; discriminate.
Qed.

Lemma eqb_ltb (x y z : float) : (x =? y) = true -> (x <? z) = (y <? z).
Proof.
  rewrite FloatAxioms.eqb_spec, !ltb_spec. unfold SFeqb, SFltb.
  destruct (SFcompare (Prim2SF x) (Prim2SF y)) as [[| |]|] eqn:A;
    try discriminate.
  now rewrite (SFcompare_eq_left _ _ (Prim2SF z) A).
Qed.

Lemma eqb_eqb (x y z : float) : (x =? y) = true -> (x =? z) = (y =? z).
Proof.
  rewrite !FloatAxioms.eqb_spec. unfold SFeqb.
  destruct (SFcompare (Prim2SF x) (Prim2SF y)) as [[| |]|] eqn:A;
    try discriminate.
  now rewrite (SFcompare_eq_left _ _ (Prim2SF z) A).
Qed.

Lemma eqb_ltb_right (x y z : float) : (y =? z) = true -> (x <? y) = (x <? z).
Proof.
  rewrite FloatAxioms.eqb_spec, !ltb_spec. unfold SFeqb, SFltb.
  destruct (SFcompare (Prim2SF y) (Prim2SF z)) as [[| |]|] eqn:A;
    try discriminate.
  intros _.
  rewrite (SFcompare_antisym (Prim2SF y) (Prim2SF x)),
          (SFcompare_antisym (Prim2SF z) (Prim2SF x)).
  now rewrite (SFcompare_eq_left _ _ (Prim2SF x) A).
Qed.

End FloatMore.

(* ================================================================= *)
(** ** More on the brand matcher *)

Module BrandMore.
Import Py Re Num Amount Mails Examples Aids FloatFacts FloatMore BrandFacts.
Local Open Scope string_scope.

Section Registry.
Variable pat : Type.
Variable re_search : pat -> string -> option bool.
Variable extract_brand_from_html : string -> option string.
Variables text sender subject : string.

#[local] Abbreviation score := (brand_score re_search text sender subject).
#[local] Abbreviation step := (consider re_search text sender subject).

(** *** The selection *)

#[local] Abbreviation selected_from :=
  (Aids.selected_from re_search text sender subject).

Lemma consider_selected (brands : registry pat) (b : best)
    (entry : string * brand_data pat) :
  In entry brands -> selected_from brands b -> selected_from brands (step b entry).
Proof.
  intros Hin Hb. unfold consider. destruct entry as [name data].
  destruct (_ || _); [|exact Hb].
  right. exists name, data. auto.
Qed.

Lemma fold_selected (brands : registry pat) (l : registry pat) :
  (forall e, In e l -> In e brands) ->
  forall b, selected_from brands b -> selected_from brands (fold_left step l b).
Proof.
  induction l as [|e l IH]; intros Hl b Hb; simpl; [exact Hb|].
  apply IH.
  - intros e' He'. apply Hl. now right.
  - apply consider_selected; [apply Hl; now left|exact Hb].
Qed.

(** No score met so far is above the winning score. *)
Lemma consider_bound (b : best) (entry : string * brand_data pat) (x : float) :
  (best_score b <? x)%float = false \/ x = score (snd entry) ->
  (best_score (step b entry) <? x)%float = false.
Proof.
  unfold consider. destruct entry as [name data]. cbn [snd].
  destruct (_ || _) eqn:C; cbn [best_score].
  - intros [H| ->]; [|apply ltb_irrefl].
    apply orb_true_iff in C as [C|C].
    + destruct (score data <? x)%float eqn:E; [|reflexivity].
      now rewrite (ltb_trans _ _ _ C E) in H.
    + apply andb_true_iff in C as [C _]. now rewrite (eqb_ltb _ _ x C).
  - apply orb_false_iff in C as [C _]. now intros [H| ->].
Qed.

Lemma fold_bound (l : registry pat) :
  forall (b : best) (seen : list float),
    (forall x, In x seen -> (best_score b <? x)%float = false) ->
    forall x, In x (seen ++ map (fun e => score (snd e)) l)%list ->
              (best_score (fold_left step l b) <? x)%float = false.
Proof.
  induction l as [|e l IH]; intros b seen Hseen x Hx; simpl in *.
  - rewrite app_nil_r in Hx. now apply Hseen.
  - apply (IH (step b e) (seen ++ [score (snd e)])%list).
    + intros y Hy. apply consider_bound.
      apply in_app_or in Hy as [Hy|[<-|[]]]; auto.
    + now rewrite <- app_assoc.
Qed.

Lemma consider_holds (b : best) (entry : string * brand_data pat)
    (xp : float * Z) :
  holds_against b xp \/ xp = (score (snd entry), priority_of (snd entry)) ->
  holds_against (step b entry) xp.
Proof.
  unfold consider, holds_against. destruct entry as [name data]. cbn [snd].
  fold (priority_of data).
  destruct (_ || _) eqn:C; cbn [best_score best_priority].
  - intros [[H1 H2]| ->]; cbn [fst snd];
      [|split; [apply ltb_irrefl|intros _; apply Z.ltb_irrefl]].
    apply orb_true_iff in C as [C|C].
    + split.
      * destruct (score data <? fst xp)%float eqn:E; [|reflexivity].
        now rewrite (ltb_trans _ _ _ C E) in H1.
      * intros E. rewrite (eqb_ltb_right _ _ _ E), C in H1. discriminate.
    + apply andb_true_iff in C as [C P]. split.
      * now rewrite (eqb_ltb _ _ (fst xp) C).
      * intros E. rewrite <- (eqb_eqb _ _ (best_score b) E) in C.
        specialize (H2 C). apply Z.ltb_lt in P. apply Z.ltb_ge in H2.
        apply Z.ltb_ge. lia.
  - apply orb_false_iff in C as [C1 C2].
    intros [H| ->]; [exact H|]. cbn [fst snd]. split; [exact C1|].
    intros E. now rewrite E in C2.
Qed.

Lemma fold_holds (l : registry pat) :
  forall (b : best) (seen : list (float * Z)),
    (forall xp, In xp seen -> holds_against b xp) ->
    forall xp,
      In xp (seen ++ map (fun e => (score (snd e), priority_of (snd e))) l)%list ->
      holds_against (fold_left step l b) xp.
Proof.
  induction l as [|e l IH]; intros b seen Hseen xp Hxp; simpl in *.
  - rewrite app_nil_r in Hxp. now apply Hseen.
  - apply (IH (step b e) (seen ++ [(score (snd e), priority_of (snd e))])%list).
    + intros y Hy. apply consider_holds.
      apply in_app_or in Hy as [Hy|[<-|[]]]; auto.
    + now rewrite <- app_assoc.
Qed.

(** X8: a brand the weighted matcher returns is a brand of the registry,
    returned with that brand's category, and its score is at least 0.35. *)
Theorem weighted_brand_match_selects (BRANDS : registry pat)
    (name cat : string) :
  weighted_brand_match re_search BRANDS text sender subject = (Some name, cat) ->
  exists data,
    In (name, data) BRANDS /\ cat = category data
    /\ (0.35 <=? brand_score re_search text sender subject data)%float = true.
Proof.
  unfold weighted_brand_match.
  pose proof (best_score_not_nan pat re_search BRANDS text sender subject) as N.
  assert (S : selected_from BRANDS (best_match re_search BRANDS text sender subject)).
  { apply fold_selected; [auto|now left]. }
  destruct (best_score _ <? 0.35)%float eqn:L; [discriminate|].
  intros H. injection H as Hb Hc.
  destruct S as [S|(name' & data & Hin & Hn & Hcat & Hs)]; [congruence|].
  exists data. rewrite Hn in Hb. injection Hb as ->.
  split; [exact Hin|]. split; [congruence|].
  rewrite <- Hs, leb_negb_ltb, L; [reflexivity|exact N|].
  vm_compute. discriminate.
Qed.

(** X9: the winning score is the greatest of the registry: no brand scores
    strictly above the score the weighted matcher settles on, so a brand
    that is returned is outscored by none. *)
Theorem weighted_brand_match_maximal (BRANDS : registry pat)
    (name : string) (data : brand_data pat) :
  In (name, data) BRANDS ->
  (best_score (best_match re_search BRANDS text sender subject)
   <? brand_score re_search text sender subject data)%float = false.
Proof.
  intros Hin. unfold best_match.
  apply (fold_bound BRANDS no_brand []); [intros x []|].
  simpl. apply in_map_iff. now exists (name, data).
Qed.

(** X15: among the brands whose score equals the winning score none has
    a priority above the priority the weighted matcher settles on: a tie
    on the score goes to the higher priority. *)
Theorem weighted_brand_match_tie_break (BRANDS : registry pat)
    (name : string) (data : brand_data pat) :
  In (name, data) BRANDS ->
  (brand_score re_search text sender subject data
   =? best_score (best_match re_search BRANDS text sender subject))%float = true ->
  (best_priority (best_match re_search BRANDS text sender subject)
   <? priority_of data)%Z = false.
Proof.
  intros Hin. unfold best_match.
  apply (fold_holds BRANDS no_brand [] (fun xp H => match H with end)
           (score data, priority_of data)).
  simpl. apply in_map_iff. now exists (name, data).
Qed.

(** X10: in the weighted matcher a pattern whose search raises counts for
    nothing: the result is the one for the registry without that pattern. *)
Theorem weighted_brand_match_skips_raising (pre post : registry pat)
    (name : string) (data : brand_data pat) (ps1 ps2 : list pat) (bad : pat) :
  patterns data = (ps1 ++ bad :: ps2)%list ->
  re_search bad text = None ->
  weighted_brand_match re_search (pre ++ (name, data) :: post)%list
    text sender subject
  = weighted_brand_match re_search
      (pre ++ (name, with_patterns data (ps1 ++ ps2)) :: post)%list
      text sender subject.
Proof.
  intros Hps Hbad.
  assert (E : forall b, step b (name, data)
                        = step b (name, with_patterns data (ps1 ++ ps2))).
  { intros b. unfold consider, brand_score, weight. cbn [with_patterns
      category patterns sender_domains subject_contains score_weights priority].
    now rewrite Hps, (pattern_found_skips pat re_search text ps1 ps2 bad Hbad). }
  unfold weighted_brand_match, best_match.
  rewrite !fold_left_app. cbn [fold_left]. now rewrite E.
Qed.

(** *** The re-scan and the fallbacks *)

Lemma merchant_found_true (ps : list pat) :
  merchant_found re_search text ps = Returns true ->
  exists p, In p ps /\ re_search p text = Some true.
Proof.
  induction ps as [|p ps IH]; simpl; [discriminate|].
  destruct (re_search p text) as [[|]|] eqn:E; try discriminate.
  - intros _. exists p. auto.
  - intros H. destruct (IH H) as (q & Hq & Eq). exists q. auto.
Qed.


Lemma first_merchant_some (brands : registry pat) (m cat : string) :
  first_merchant re_search text brands = Returns (Some (m, cat)) ->
  is_gateway m = false
  /\ exists data p,
       In (m, data) brands /\ cat = category data
       /\ In p (patterns data) /\ re_search p text = Some true.
Proof.
  induction brands as [|[name data] rest IH]; simpl; [discriminate|].
  destruct (is_gateway name) eqn:G.
  - intros H. destruct (IH H) as (Hg & d & p & Hin & Hrest). eauto 8.
  - destruct (merchant_found re_search text (patterns data)) as [[|]|] eqn:F;
      try discriminate.
    + intros H. injection H as <- <-.
      apply merchant_found_true in F as (p & Hp & E). eauto 8.
    + intros H. destruct (IH H) as (Hg & d & p & Hin & Hrest). eauto 8.
Qed.


Lemma some_truthy_some (o : option string) (b : string) :
  some_truthy o = Some b -> o = Some b /\ b <> "".
Proof.
  destruct o as [s|]; simpl; [|discriminate].
  destruct s; simpl; [discriminate|].
  intros H. injection H as <-. split; [reflexivity|discriminate].
Qed.

Lemma accept_or_infer_cases (json_brand : option string)
    (json_category html : string) (b : option string) (cat : string)
    (conf : float) :
  accept_or_infer extract_brand_from_html json_brand json_category
    text html sender subject = (b, cat, conf) ->
  (exists m, b = Some m /\ m <> "" /\ conf = 0.95%float
             /\ json_brand = Some m /\ cat = json_category)
  \/ (exists m, b = Some m /\ m <> "" /\ cat = "others"
                /\ (conf = 0.75 \/ conf = 0.6 \/ conf = 0.7)%float)
  \/ (b = None /\ cat = "others" /\ conf = 0%float).
Proof.
  unfold accept_or_infer.
  destruct (some_truthy json_brand) as [m|] eqn:J.
  { intros H. injection H as <- <- <-.
    apply some_truthy_some in J as [-> Hm]. left. exists m. auto. }
  destruct (some_truthy (extract_brand_from_sender sender)) as [m|] eqn:S.
  { intros H. injection H as <- <- <-.
    apply some_truthy_some in S as [_ Hm]. right. left. exists m. auto 6. }
  destruct (some_truthy (extract_brand_from_text _)) as [m|] eqn:T.
  { intros H. injection H as <- <- <-.
    apply some_truthy_some in T as [_ Hm]. right. left. exists m. auto 6. }
  destruct (some_truthy (extract_brand_from_html html)) as [m|] eqn:L.
  { intros H. injection H as <- <- <-.
    apply some_truthy_some in L as [_ Hm]. right. left. exists m. auto 7. }
  intros H. injection H as <- <- <-. auto.
Qed.

(** X11: what [detect_brand] returns is one of four things: a registry
    brand that is no gateway, with its category, at 0.98; a non-empty brand
    the weighted matcher selected, with the matcher's category, at 0.95; a
    non-empty inferred brand of category "others" at 0.75, 0.6 or 0.7; or no
    brand, category "others", at 0.0. *)
Theorem detect_brand_cases (BRANDS : registry pat) (html : string)
    (b : option string) (cat : string) (conf : float) :
  detect_brand re_search BRANDS extract_brand_from_html text html sender subject
  = Returns (b, cat, conf) ->
  (exists m data,
      b = Some m /\ conf = 0.98%float /\ is_gateway m = false
      /\ In (m, data) BRANDS /\ cat = category data)
  \/ (exists m,
        b = Some m /\ m <> "" /\ conf = 0.95%float
        /\ weighted_brand_match re_search BRANDS text sender subject
           = (Some m, cat))
  \/ (exists m,
        b = Some m /\ m <> "" /\ cat = "others"
        /\ (conf = 0.75 \/ conf = 0.6 \/ conf = 0.7)%float)
  \/ (b = None /\ cat = "others" /\ conf = 0%float).
Proof.
  unfold detect_brand.
  destruct (weighted_brand_match re_search BRANDS text sender subject)
    as [json_brand json_category] eqn:W.
  assert (Hinfer :
    Returns (accept_or_infer extract_brand_from_html json_brand json_category
               text html sender subject) = Returns (b, cat, conf) ->
    (exists m, b = Some m /\ m <> "" /\ conf = 0.95%float
               /\ (json_brand, json_category) = (Some m, cat))
    \/ (exists m, b = Some m /\ m <> "" /\ cat = "others"
                  /\ (conf = 0.75 \/ conf = 0.6 \/ conf = 0.7)%float)
    \/ (b = None /\ cat = "others" /\ conf = 0%float)).
  { intros H. assert (H' := f_equal (fun o => match o with
                                              | Returns x => x
                                              | Raises => (b, cat, conf)
                                              end) H).
    cbv beta iota in H'.
    apply accept_or_infer_cases in H'
      as [(m & -> & Hm & -> & -> & <-)|[H'|H']]; eauto 10. }
  destruct json_brand as [g|]; [|intros H; right; now apply Hinfer].
  destruct (is_gateway g); [|intros H; right; now apply Hinfer].
  destruct (first_merchant re_search text BRANDS) as [[[m c]|]|] eqn:F;
    [|intros H; right; now apply Hinfer|discriminate].
  intros H.
  assert (H' := f_equal (fun o => match o with
                                  | Returns x => x
                                  | Raises => (b, cat, conf)
                                  end) H).
  cbv beta iota in H'.
  apply first_merchant_some in F as (G & data & p & Hin & -> & _).
  left. exists m, data.
  assert (Hb : Some m = b) by (now apply (f_equal (fun x => fst (fst x))) in H').
  assert (Hc : category data = cat)
    by (now apply (f_equal (fun x => snd (fst x))) in H').
  assert (Hf : 0.98%float = conf) by (now apply (f_equal snd) in H').
  subst. auto 6.
Qed.


End Registry.

Lemma weighted_brand_match_selects_witness :
  exists data,
    In ("stripe", data) stripe_and_levis /\ "payments" = category data
    /\ (0.35 <=? brand_score re_search "levis order paid via stripe" "" "" data)%float
       = true.
Proof.
  apply (weighted_brand_match_selects string re_search
           "levis order paid via stripe" "" "" stripe_and_levis
           "stripe" "payments").
  vm_compute. reflexivity.
Defined.

Lemma weighted_brand_match_maximal_witness :
  (best_score (best_match re_search stripe_and_levis "levis order" "" "")
   <? brand_score re_search "levis order" "" ""
        (simple_brand "payments" ["stripe"]))%float = false.
Proof.
  apply (weighted_brand_match_maximal string re_search "levis order" "" ""
           stripe_and_levis "stripe").
  left. reflexivity.
Defined.

(** Both brands score 0.5; the second, of priority 5, is selected, and the
    first, of priority 1, is not above it. *)
Lemma weighted_brand_match_tie_break_witness :
  weighted_brand_match re_search two_shops "shop order" "" ""
  = (Some "beta", "retail")
  /\ (best_priority (best_match re_search two_shops "shop order" "" "")
      <? priority_of (simple_brand "shopping" ["shop"]))%Z = false.
Proof.
  split; [vm_compute; reflexivity|].
  apply (weighted_brand_match_tie_break string re_search "shop order" "" ""
           two_shops "alpha").
  - left. reflexivity.
  - vm_compute. reflexivity.
Defined.

Lemma weighted_brand_match_skips_raising_witness :
  weighted_brand_match re_search
    ([("stripe", simple_brand "payments" ["stripe"])]
     ++ ("acme", simple_brand "shopping" ["("]) :: [])%list
    "paid via stripe" "" ""
  = weighted_brand_match re_search
      ([("stripe", simple_brand "payments" ["stripe"])]
       ++ ("acme", with_patterns (simple_brand "shopping" ["("]) ([] ++ [])%list)
          :: [])%list
      "paid via stripe" "" "".
Proof.
  apply (weighted_brand_match_skips_raising string re_search
           "paid via stripe" "" ""
           [("stripe", simple_brand "payments" ["stripe"])] []
           "acme" (simple_brand "shopping" ["("]) [] [] "(").
  - reflexivity.
  - vm_compute. reflexivity.
Defined.

Lemma detect_brand_cases_witness :
  (exists m data,
      Some "levis" = Some m /\ 0.98%float = 0.98%float /\ is_gateway m = false
      /\ In (m, data) stripe_and_levis /\ "fashion" = category data)
  \/ (exists m,
        Some "levis" = Some m /\ m <> "" /\ 0.98%float = 0.95%float
        /\ weighted_brand_match re_search stripe_and_levis
             "levis order paid via stripe" "" "" = (Some m, "fashion"))
  \/ (exists m,
        Some "levis" = Some m /\ m <> "" /\ "fashion" = "others"
        /\ (0.98 = 0.75 \/ 0.98 = 0.6 \/ 0.98 = 0.7)%float)
  \/ (Some "levis" = None /\ "fashion" = "others" /\ 0.98%float = 0%float).
Proof.
  apply (detect_brand_cases string re_search no_logo
           "levis order paid via stripe" "" "" stripe_and_levis ""
           (Some "levis") "fashion" 0.98%float).
  vm_compute. reflexivity.
Defined.


End BrandMore.

(* ================================================================= *)
(** ** More on the sender fallback and on the main processor *)

Module ProcessorMore.
Import Py Re Num Amount Mails Examples Aids PyFacts AmountMore.
Local Open Scope string_scope.

Lemma last_segment_no_sep (sep : ascii) (s : string) :
  contains (String sep "") (last_segment sep s) = false.
Proof.
  induction s as [|c s IH]; [reflexivity|].
  cbn [last_segment].
  destruct (contains (String sep "") s) eqn:E; [exact IH|].
  destruct (Ascii.eqb c sep) eqn:C; [exact E|].
  rewrite contains_cons, E, orb_false_r, startswith_cons.
  now rewrite Ascii.eqb_sym, C.
Qed.

(** X13: a brand inferred from the sender is one label of the domain (it
    holds no dot) and none of the generic words mail, info, support,
    billing, noreply, service. *)
Theorem extract_brand_from_sender_label (sender brand : string) :
  extract_brand_from_sender sender = Some brand ->
  contains "." brand = false
  /\ ~ In brand ["mail"; "info"; "support"; "billing"; "noreply"; "service"].
Proof.
  unfold extract_brand_from_sender.
  destruct (search false _ (lower sender)) as [m|]; [|discriminate].
  destruct (existsb _ _) eqn:G; [discriminate|].
  intros H. injection H as <-. split; [apply last_segment_no_sep|].
  intros Hin.
  assert (T : existsb (String.eqb (last_segment "." (group 1 (groups m))))
                ["mail"; "info"; "support"; "billing"; "noreply"; "service"]
              = true).
  { apply existsb_exists. eexists. split; [exact Hin|apply String.eqb_refl]. }
  congruence.
Qed.

Lemma extract_brand_from_sender_label_witness :
  contains "." "flipkart" = false
  /\ ~ In "flipkart" ["mail"; "info"; "support"; "billing"; "noreply"; "service"].
Proof.
  apply (extract_brand_from_sender_label "Billing@Mail.Flipkart.com").
  vm_compute. reflexivity.
Defined.

Local Open Scope float_scope.

Lemma extract_amount_confidence_values (text html subject : string) :
  let conf := snd (extract_amount text html subject) in
  conf = 0 \/ conf = 0.5 \/ conf = 0.6 \/ conf = 0.7 \/ conf = 0.8 \/ conf = 0.9.
Proof.
  cbv zeta.
  destruct (extract_amount_cases text html subject) as [->|(c & _ & ->)];
    [now left|].
  pose proof (verdict_of_candidate (lower subject) (lower text) c) as V.
  cbv zeta in V.
  destruct V as [V|[V|[V|[V|[V|V]]]]]; rewrite V; cbn [snd]; auto 6.
Qed.

Lemma extract_date_confidence_values (text html meta_date subject : string) :
  let conf := snd (extract_date text html meta_date subject) in
  conf = 0 \/ conf = 0.5 \/ conf = 0.6 \/ conf = 0.8.
Proof.
  unfold extract_date.
  destruct (search true DATE_REGEX (normalize_broken_dates html));
    [|destruct (search true DATE_REGEX (normalize_broken_dates text))];
    destruct (any_in RECEIPT_META subject); cbn [snd];
    try (right; right; right; vm_compute; reflexivity); auto.
Qed.

Lemma receipt_negation_confidence_range (text html subject : string) :
  (0 <=? receipt_negation_confidence text html subject) = true
  /\ (receipt_negation_confidence text html subject <=? 1) = true.
Proof.
  unfold receipt_negation_confidence, receipt_negation_score.
  destruct (any_in RECEIPT_META (lower subject));
    destruct (extract_amount (lower text) html (lower subject)) as [[amt|] conf];
    destruct (matches true ID_REGEX (lower text));
    vm_compute; auto.
Qed.

Lemma mean_confidence_range (amount_conf date_conf : float) :
  (amount_conf = 0 \/ amount_conf = 0.5 \/ amount_conf = 0.6 \/ amount_conf = 0.7
   \/ amount_conf = 0.8 \/ amount_conf = 0.9) ->
  (date_conf = 0 \/ date_conf = 0.5 \/ date_conf = 0.6 \/ date_conf = 0.8) ->
  (0 <=? mean_confidence amount_conf date_conf) = true
  /\ (mean_confidence amount_conf date_conf <=? 1) = true.
Proof.
  intros [->|[->|[->|[->|[->| ->]]]]] [->|[->|[->| ->]]];
    vm_compute; auto.
Qed.

Section Registry.
Variable pat : Type.
Variable re_search : pat -> string -> option bool.
Variable BRANDS : registry pat.
Variable extract_brand_from_html : string -> option string.
Variable extract_text_and_html : string -> string * string.

(** X14: every record [process_mail] returns has its [overall_confidence]
    between 0 and 1, and a record of type [others] carries none of the
    amount, date and frequency keys. *)
Theorem process_mail_confidence_range (m : mail) (r : annotated) :
  process_mail re_search BRANDS extract_brand_from_html extract_text_and_html m
  = Returns r ->
  (0 <=? overall_confidence r) = true
  /\ (overall_confidence r <=? 1) = true
  /\ (type r = others -> fields r = others_details).
Proof.
  unfold process_mail.
  destruct (extract_text_and_html (body m)) as [html text].
  destruct (detect_brand _ _ _ _ _ _ _) as [[[b c] conf]|]; [|discriminate].
  pose proof (extract_amount_confidence_values text html (lower (subject_line m)))
    as A.
  pose proof (extract_date_confidence_values text html (date_line m)
                (lower (subject_line m))) as D.
  cbv zeta in A, D.
  destruct (extract_amount _ _ _) as [amount amount_conf].
  destruct (extract_date _ _ _ _) as [date date_conf].
  destruct (extract_frequency _) as [freq freq_conf].
  cbn [snd] in A, D.
  destruct (classify_type _ _ _); intros H; injection H as <-;
    cbn [type fields overall_confidence].
  - destruct (mean_confidence_range _ _ A D). repeat split; auto. discriminate.
  - destruct (mean_confidence_range _ _ A D). repeat split; auto. discriminate.
  - destruct (receipt_negation_confidence_range text html
                (lower (subject_line m))). auto.
Qed.

End Registry.

Lemma process_mail_confidence_range_witness :
  (0 <=? 0.85) = true /\ (0.85 <=? 1) = true
  /\ (subscription = others -> 
      subscription_details (Some "649.0"%string) 0.9 (Some "5 nov 2025"%string)
        0.8 (Some "monthly"%string) 0.9 = others_details).
Proof.
  apply (process_mail_confidence_range string re_search [] no_logo plain_views
           renewal_mail
           {| brand := Some "netflix"%string; brand_category := "others";
              type := subscription; overall_confidence := 0.85;
              fields := subscription_details (Some "649.0"%string) 0.9
                          (Some "5 nov 2025"%string) 0.8
                          (Some "monthly"%string) 0.9 |}).
  vm_compute. reflexivity.
Defined.

End ProcessorMore.
